(** * FastLookup: Bloom filter + sieve + negative cache (src/fast-lookup.js)

    A shallow embedding of the three classes of [src/fast-lookup.js]
    ([LRU], [BloomFilter], [FastLookup]) and the properties of the lookup
    cascade.

    Conventions of the embedding
    - keys are JavaScript strings ([string]);
    - a JavaScript [Map] whose iteration order the code relies on (the LRU
      store) is an association list in insertion order; a [Map] or [Set]
      used only through [has]/[get]/[set]/[add]/[delete] is a [gmap] or
      [gset];
    - the [Uint8Array] of the filter is a list of bytes, read and written
      by index, writes outside the array being ignored and reads outside
      it giving [undefined];
    - [async] methods are split at their [await]: the part before it, and
      the part that runs when the awaited promise settles;
    - wall-clock readings ([performance.now()], [new Date()]) and
      [Math.random()] draws are inputs of the functions that consume them;
      the accumulated [stats.totalTime] is not part of the state. *)

From Stdlib Require Import ZArith NArith List String Ascii DecimalString PrimFloat.
From stdpp Require Import base gmap strings list fin_maps.

Local Open Scope string_scope.
Local Open Scope N_scope.

(** ** JavaScript values held by the caches *)

(** What [add] stores and [get] returns: [null], or an object with string
    fields (kept in the order of the object literal). *)
Inductive value :=
| VNull
| VObject (fields : list (string * string)).

(** Truthiness, as tested by [if (result)]. *)
Definition truthy (v : value) : bool :=
  match v with
  | VNull => false
  | VObject _ => true
  end.

(** [n.toString()] for a non-negative integer. *)
Definition toString (n : nat) : string :=
  NilEmpty.string_of_uint (Nat.to_uint n).

(** ** class LRU *)

Record LRU := mkLRU {
  maxSize : N;
  cache : list (string * value)   (* Map, oldest entry first *)
}.

Definition LRU_new (maxSize : N) : LRU := mkLRU maxSize [].

(** [Map.prototype.has] *)
Definition map_has (k : string) (m : list (string * value)) : bool :=
  existsb (fun kv => String.eqb (fst kv) k) m.

(** [Map.prototype.get]; [None] is [undefined] *)
Fixpoint map_get (k : string) (m : list (string * value)) : option value :=
  match m with
  | [] => None
  | (k', v) :: m' => if String.eqb k' k then Some v else map_get k m'
  end.

(** [Map.prototype.delete] *)
Definition map_delete (k : string) (m : list (string * value)) : list (string * value) :=
  List.filter (fun kv => negb (String.eqb (fst kv) k)) m.

(** [Map.prototype.set] on a key that is not in the map: appended last. *)
Definition map_append (k : string) (v : value) (m : list (string * value)) : list (string * value) :=
  m ++ [(k, v)].

Definition LRU_has (c : LRU) (key : string) : bool := map_has key (cache c).

(** [get(key)]: the value (or [null]) and the cache with the key moved to
    the end. *)
Definition LRU_get (c : LRU) (key : string) : LRU * value :=
  if negb (map_has key (cache c)) then (c, VNull)
  else
    let value := default VNull (map_get key (cache c)) in
    (mkLRU (maxSize c) (map_append key value (map_delete key (cache c))), value).

Definition LRU_set (c : LRU) (key : string) (v : value) : LRU :=
  let cache1 :=
    if map_has key (cache c) then map_delete key (cache c)
    else if maxSize c <=? N.of_nat (length (cache c))   (* size >= maxSize *)
         then match cache c with
              | [] => cache c                      (* delete(undefined) *)
              | (firstKey, _) :: _ => map_delete firstKey (cache c)
              end
         else cache c in
  mkLRU (maxSize c) (map_append key v cache1).

(** [set] called once per entry of a list, in order. *)
Definition LRU_set_all (c : LRU) (entries : list (string * value)) : LRU :=
  fold_left (fun c kv => LRU_set c (fst kv) (snd kv)) entries c.

(** A caller of the store: [set] and [get] in any order. *)
Inductive lru_call :=
| LruSet (key : string) (v : value)
| LruGet (key : string).

Definition LRU_call (c : LRU) (o : lru_call) : LRU :=
  match o with
  | LruSet key v => LRU_set c key v
  | LruGet key => fst (LRU_get c key)
  end.

Definition LRU_calls (c : LRU) (calls : list lru_call) : LRU :=
  fold_left LRU_call calls c.

(** What every call keeps: distinct keys, and no more entries than the
    capacity, or than one when the capacity is 0. *)
Definition lru_bounded (c : LRU) : Prop :=
  NoDup (map fst (cache c)) /\
  N.of_nat (length (cache c)) <= N.max (maxSize c) 1.

(** ** class BloomFilter *)

Record BloomFilter := mkBloom {
  size : N;
  numHashes : nat;
  bits : list N;          (* Uint8Array *)
  itemCount : nat
}.

(** [Math.ceil(size / 8)] *)
Definition ceil_div8 (n : N) : N := (n + 7) / 8.

(** The constructor; [numHashes] is the value of
    [Math.ceil(-Math.log2(falsePositiveRate))] (10 for the default 0.001). *)
Definition BloomFilter_new (size : N) (numHashes : nat) : BloomFilter :=
  mkBloom size numHashes (replicate (N.to_nat (ceil_div8 size)) 0) 0.

(** The byte stored by [bits[byteIndex] |= (1 << bitIndex)]: the result of
    the [|] is converted to a [Uint8]. *)
Definition or_bit (bitIndex old : N) : N := N.lor old (N.shiftl 1 bitIndex) mod 256.

(** The [crypto] module: [sha256_u32 s] is [digest.readUInt32BE(0)] of the
    SHA-256 digest of [s].  The hash function is left uninterpreted. *)
Class Sha256 := sha256_u32 : string -> N.

Section Digest.
Context `{digest : Sha256}.

(** [_hash(item, seed)]; [None] is [NaN], the value of [x % 0]. *)
Definition _hash (b : BloomFilter) (item : string) (seed : nat) : option N :=
  if size b =? 0 then None
  else Some (sha256_u32 (item ++ toString seed) mod size b).

(** One iteration of the loop of [add]:
    [this.bits[byteIndex] |= (1 << bitIndex)].  A write at index [NaN] or
    past the end is ignored. *)
Definition set_bit (b : BloomFilter) (bits : list N) (item : string) (i : nat) : list N :=
  match _hash b item i with
  | None => bits
  | Some index =>
      let byteIndex := N.to_nat (index / 8) in
      let bitIndex := index mod 8 in
      match bits !! byteIndex with
      | None => bits
      | Some old => <[byteIndex := or_bit bitIndex old]> bits
      end
  end.

Definition BloomFilter_add (b : BloomFilter) (item : string) : BloomFilter :=
  mkBloom (size b) (numHashes b)
          (fold_left (fun bits i => set_bit b bits item i) (seq 0 (numHashes b)) (bits b))
          (S (itemCount b)).

(** The test of one iteration of [mightContain]:
    [this.bits[byteIndex] & (1 << bitIndex)] is non-zero.  A read at index
    [NaN] or past the end gives [undefined], and [undefined & m] is 0. *)
Definition test_bit (b : BloomFilter) (item : string) (i : nat) : bool :=
  match _hash b item i with
  | None => false
  | Some index =>
      let byteIndex := N.to_nat (index / 8) in
      let bitIndex := index mod 8 in
      match bits b !! byteIndex with
      | None => false
      | Some byte => negb (N.land byte (N.shiftl 1 bitIndex) =? 0)
      end
  end.

Definition BloomFilter_mightContain (b : BloomFilter) (item : string) : bool :=
  forallb (test_bit b item) (seq 0 (numHashes b)).

(** Bit [index] of the array, as [mightContain] reads it. *)
Definition bit_at (bits : list N) (index : N) : bool :=
  match bits !! N.to_nat (index / 8) with
  | Some byte => N.testbit byte (index mod 8)
  | None => false
  end.

(** What the constructor establishes when [size] is positive: the array
    has [Math.ceil(size / 8)] bytes. *)
Definition wf_filter (b : BloomFilter) : Prop :=
  0 < size b /\ length (bits b) = N.to_nat (ceil_div8 (size b)).

(** All the bits of [item] are set: those at its [numHashes] hash positions. *)
Definition has_bits_of (b : BloomFilter) (item : string) : Prop :=
  forall i index, (i < numHashes b)%nat -> _hash b item i = Some index ->
                  bit_at (bits b) index = true.

(** [estimateFPR] computes [Math.pow(1 - Math.exp(-k * n / m), k)] from
    these three fields and nothing else. *)
Definition estimateFPR_inputs (b : BloomFilter) : nat * N * nat :=
  (numHashes b, size b, itemCount b).

(** ** class FastLookup *)


Record Stats := mkStats {
  lookups : nat;
  hotHits : nat;
  negativeHits : nat;
  sieveHits : nat;
  bloomHits : nat;
  fetches : nat;
  notFound : nat
}.

Record FastLookup := mkFastLookup {
  hotCache : LRU;                  (* L1 *)
  bloom : BloomFilter;             (* L2 *)
  sieve : gset string;             (* L3: definite exists *)
  negative : gset string;          (* L4: definite NOT exists *)
  index : gmap string value;       (* mock index *)
  stats : Stats
}.

(** The [options] object of the constructor; an absent field is [None].
    [fprHashes] is [Math.ceil(-Math.log2(fpr))] for the [fpr] given. *)
Record Options := mkOptions {
  cacheSize : option N;
  bloomSize : option N;
  fprHashes : option nat
}.

(** [x || d] on an optional number: [undefined] and [0] are falsy. *)
Definition or_default (x : option N) (d : N) : N :=
  match x with
  | None => d
  | Some n => if n =? 0 then d else n
  end.

Definition FastLookup_new (options : Options) : FastLookup :=
  mkFastLookup
    (LRU_new (or_default (cacheSize options) 10000))
    (BloomFilter_new (or_default (bloomSize options) 100000)
                     (default 10%nat (fprHashes options)))
    ∅ ∅ ∅
    (mkStats 0 0 0 0 0 0 0).

Definition with_stats (s : FastLookup) (st : Stats) : FastLookup :=
  mkFastLookup (hotCache s) (bloom s) (sieve s) (negative s) (index s) st.

Definition inc_lookups (st : Stats) : Stats :=
  mkStats (S (lookups st)) (hotHits st) (negativeHits st) (sieveHits st)
          (bloomHits st) (fetches st) (notFound st).
Definition inc_hotHits (st : Stats) : Stats :=
  mkStats (lookups st) (S (hotHits st)) (negativeHits st) (sieveHits st)
          (bloomHits st) (fetches st) (notFound st).
Definition inc_negativeHits (st : Stats) : Stats :=
  mkStats (lookups st) (hotHits st) (S (negativeHits st)) (sieveHits st)
          (bloomHits st) (fetches st) (notFound st).
Definition inc_sieveHits (st : Stats) : Stats :=
  mkStats (lookups st) (hotHits st) (negativeHits st) (S (sieveHits st))
          (bloomHits st) (fetches st) (notFound st).
Definition inc_bloomHits (st : Stats) : Stats :=
  mkStats (lookups st) (hotHits st) (negativeHits st) (sieveHits st)
          (S (bloomHits st)) (fetches st) (notFound st).
Definition inc_fetches (st : Stats) : Stats :=
  mkStats (lookups st) (hotHits st) (negativeHits st) (sieveHits st)
          (bloomHits st) (S (fetches st)) (notFound st).
Definition inc_notFound (st : Stats) : Stats :=
  mkStats (lookups st) (hotHits st) (negativeHits st) (sieveHits st)
          (bloomHits st) (fetches st) (S (notFound st)).

(** *** fetchFromIndex *)

(** The object literal returned for a key that is not in the index;
    [created] is [new Date().toISOString()]. *)
Definition mock_record (hash created : string) : value :=
  VObject [("hash", hash);
           ("source", "// Function " ++ hash);
           ("wasm", "bW9jay13YXNt");          (* base64 of 'mock-wasm' *)
           ("created", created)].

(** The double that the literal [0.1] denotes. *)
Definition one_tenth : float := 0x1.999999999999ap-4%float.

(** The part of [fetchFromIndex] after its timer: [draw] is the value of
    the second [Math.random()], [created] the clock reading.  It reads the
    index as it is when the timer fires. *)
Definition fetchFromIndex (s : FastLookup) (hash : string)
    (draw : float) (created : string) : value :=
  match index s !! hash with
  | Some v => v
  | None =>
      if PrimFloat.ltb draw one_tenth   (* Math.random() < 0.1 *)
      then VNull
      else mock_record hash created
  end.

(** *** get *)

(** The two places where [get] awaits [fetchFromIndex]. *)
Inductive fetch_site :=
| SieveFetch        (* the key is in the sieve *)
| BloomFetch.       (* the filter said maybe *)

(** How the promise returned by [get] settles. *)
Inductive outcome :=
| Resolved (v : value)
| Rejected (error : string).

(** How the promise of a backing-store fetch settles.  [fetchFromIndex]
    above always fulfils; a store that fails rejects. *)
Inductive fetched :=
| Fulfilled (v : value)
| Failed (error : string).

(** [get] up to its first [await]: it has either returned, or it is
    suspended on a fetch. *)
Inductive get_step :=
| Returned (s : FastLookup) (result : value)
| Awaiting (s : FastLookup) (site : fetch_site).

Definition get_begin (s : FastLookup) (hash : string) : get_step :=
  let s := with_stats s (inc_lookups (stats s)) in
  if LRU_has (hotCache s) hash then
    let s := with_stats s (inc_hotHits (stats s)) in
    let (hot, v) := LRU_get (hotCache s) hash in
    Returned (mkFastLookup hot (bloom s) (sieve s) (negative s) (index s) (stats s)) v
  else if bool_decide (hash ∈ negative s) then
    Returned (with_stats s (inc_negativeHits (stats s))) VNull
  else if bool_decide (hash ∈ sieve s) then
    Awaiting (with_stats s (inc_sieveHits (stats s))) SieveFetch
  else if negb (BloomFilter_mightContain (bloom s) hash) then
    let s := with_stats s (inc_notFound (stats s)) in
    Returned (mkFastLookup (hotCache s) (bloom s) (sieve s) ({[hash]} ∪ negative s)
                           (index s) (stats s)) VNull
  else
    Awaiting (with_stats s (inc_fetches (inc_bloomHits (stats s)))) BloomFetch.

(** [get] from the point where the awaited fetch settles.  A rejection is
    thrown at the [await]; the [finally] block only touches the timing. *)
Definition get_resume (s : FastLookup) (site : fetch_site) (hash : string)
    (r : fetched) : FastLookup * outcome :=
  match r with
  | Failed e => (s, Rejected e)
  | Fulfilled result =>
      match site with
      | SieveFetch =>
          (mkFastLookup (LRU_set (hotCache s) hash result) (bloom s) (sieve s)
                        (negative s) (index s) (stats s),
           Resolved result)
      | BloomFetch =>
          if truthy result then
            (mkFastLookup (LRU_set (hotCache s) hash result)
                          (BloomFilter_add (bloom s) hash)
                          ({[hash]} ∪ sieve s) (negative s) (index s) (stats s),
             Resolved result)
          else
            (mkFastLookup (hotCache s) (bloom s) (sieve s) ({[hash]} ∪ negative s)
                          (index s) (inc_notFound (stats s)),
             Resolved result)
      end
  end.

(** A call of [get] that nothing interleaves with: the state, the settled
    promise, and the keys [fetchFromIndex] was called with. *)
Definition get (s : FastLookup) (hash : string) (draw : float) (created : string)
    : FastLookup * outcome * list string :=
  match get_begin s hash with
  | Returned s' v => (s', Resolved v, [])
  | Awaiting s' site =>
      let (s'', o) := get_resume s' site hash (Fulfilled (fetchFromIndex s' hash draw created)) in
      (s'', o, [hash])
  end.

(** *** add, preload, clear *)

Definition add (s : FastLookup) (hash : string) (data : value) : FastLookup :=
  mkFastLookup (LRU_set (hotCache s) hash data)
               (BloomFilter_add (bloom s) hash)
               ({[hash]} ∪ sieve s)
               (negative s ∖ {[hash]})
               (<[hash := data]> (index s))
               (stats s).

(** [preload(hashes)]: the loop adds a key, then leaves if more than 100ms
    have passed; [extra] is the number of iterations the clock allows after
    the first. *)
Definition preload (s : FastLookup) (hashes : list string) (extra : nat) : FastLookup :=
  mkFastLookup (hotCache s)
               (fold_left BloomFilter_add (take (S extra) hashes) (bloom s))
               (sieve s) (negative s) (index s) (stats s).

Definition clear (s : FastLookup) : FastLookup :=
  mkFastLookup (LRU_new 10000) (bloom s) ∅ ∅ (index s) (stats s).

(** Every key held by the hot cache is in the sieve. *)
Definition hot_in_sieve (s : FastLookup) : Prop :=
  forall k, LRU_has (hotCache s) k = true -> k ∈ sieve s.

(** ** Callers *)

(** A call that has settled before the next one is made. *)
Inductive call :=
| CallGet (hash : string) (draw : float) (created : string)
| CallAdd (hash : string) (data : value)
| CallPreload (hashes : list string) (extra : nat)
| CallClear.

Definition run_call (s : FastLookup) (c : call) : FastLookup :=
  match c with
  | CallGet hash draw created => fst (fst (get s hash draw created))
  | CallAdd hash data => add s hash data
  | CallPreload hashes extra => preload s hashes extra
  | CallClear => clear s
  end.

Definition run_calls (s : FastLookup) (calls : list call) : FastLookup :=
  fold_left run_call calls s.

(** The calls that do not register or reset anything. *)
Definition reads_only (c : call) : bool :=
  match c with
  | CallGet _ _ _ | CallPreload _ _ => true
  | CallAdd _ _ | CallClear => false
  end.

(** The event loop.  A [get] that reaches its [await] stays suspended,
    with its key and the place it waits at, until the timer of its fetch
    fires; other calls and other timers may run in between.  [add],
    [preload] and [clear] have no [await] and run in one piece. *)
Record Loop := mkLoop {
  registry : FastLookup;
  suspended : list (string * fetch_site)
}.

Inductive event :=
| Get (hash : string)
| Add (hash : string) (data : value)
| Preload (hashes : list string) (extra : nat)
| Clear
| Timer (i : nat) (draw : float) (created : string).   (* of the i-th suspended get *)

Definition handle (l : Loop) (e : event) : Loop :=
  match e with
  | Get hash =>
      match get_begin (registry l) hash with
      | Returned s _ => mkLoop s (suspended l)
      | Awaiting s site => mkLoop s (suspended l ++ [(hash, site)])
      end
  | Add hash data => mkLoop (add (registry l) hash data) (suspended l)
  | Preload hashes extra => mkLoop (preload (registry l) hashes extra) (suspended l)
  | Clear => mkLoop (clear (registry l)) (suspended l)
  | Timer i draw created =>
      match suspended l !! i with
      | None => l
      | Some (hash, site) =>
          let result := fetchFromIndex (registry l) hash draw created in
          mkLoop (fst (get_resume (registry l) site hash (Fulfilled result)))
                 (delete i (suspended l))
      end
  end.

Definition run_events (l : Loop) (events : list event) : Loop :=
  fold_left handle events l.

(** The keys whose filter-branch fetch is in flight. *)
Definition is_bloom_fetch (site : fetch_site) : bool :=
  match site with
  | BloomFetch => true
  | SieveFetch => false
  end.

Definition fetching_keys (waiting : list (string * fetch_site)) : list string :=
  map fst (List.filter (fun p => is_bloom_fetch (snd p)) waiting).

Definition fetching (waiting : list (string * fetch_site)) (hash : string) : bool :=
  existsb (String.eqb hash) (fetching_keys waiting).

(** The two ways an event can clash with a [get] that is suspended at the
    fetch of its filter branch: a second [get] of the same key that would
    start a second such fetch, and an [add] of a falsy value for the key. *)
Definition clash (l : Loop) (e : event) : bool :=
  match e with
  | Get hash =>
      match get_begin (registry l) hash with
      | Awaiting _ BloomFetch => fetching (suspended l) hash
      | _ => false
      end
  | Add hash data => negb (truthy data) && fetching (suspended l) hash
  | _ => false
  end.




End Digest.

(** ** Sample inputs

    A stand-in for the digest, and small instances on which the
    definitions are evaluated. *)

Definition length_digest : Sha256 := fun s => N.of_nat (String.length s).

Definition small_options : Options := mkOptions (Some 5) (Some 64) (Some 3%nat).

Definition sample_record : value := VObject [("hash", "k1"); ("source", "func1")].

Definition small_lookup : FastLookup := FastLookup_new small_options.

Definition sample_time : string := "2025-01-01T00:00:00.000Z".

(** "z" has been preloaded and nothing else is known about it. *)
Definition preloaded_lookup : FastLookup :=
  preload (digest := length_digest) small_lookup ["z"] 0.

(** [preloaded_lookup] with the counters of a [get("z")] that is waiting
    for its fetch. *)
Definition preloaded_awaiting : FastLookup :=
  with_stats preloaded_lookup (mkStats 1 0 0 0 1 1 0).

(** "unknown-key" has been looked up once and found absent. *)
Definition lookup_after_miss : FastLookup :=
  run_call (digest := length_digest) small_lookup
           (CallGet "unknown-key" 0.5%float sample_time).

(** A store of capacity 2 holding "a" (oldest) and "b". *)
Definition full_cache : LRU :=
  LRU_set_all (LRU_new 2) [("a", sample_record); ("b", VNull)].

(** A lookup with a hot cache of one entry: "z" was fabricated by a fetch,
    then pushed out of the hot cache by the [add] of "k1". *)
Definition lookup_after_eviction : FastLookup :=
  run_calls (digest := length_digest)
    (FastLookup_new (mkOptions (Some 1) (Some 64) (Some 3%nat)))
    [CallPreload ["z"] 0; CallGet "z" 0.5%float sample_time;
     CallAdd "k1" sample_record].


(** ** Properties *)

Section Properties.
Context `{digest : Sha256}.

(** *** The LRU store *)

Lemma map_has_false (k : string) (m : list (string * value)) :
  map_has k m = false <-> ~ In k (map fst m).
Proof.
  unfold map_has. induction m as [|[k' v] m IH]; simpl; [tauto|].
  rewrite orb_false_iff, IH.
  destruct (String.eqb_spec k' k); intuition congruence.
Qed.

Lemma map_has_true (k : string) (m : list (string * value)) :
  map_has k m = true <-> In k (map fst m).
Proof.
  destruct (map_has k m) eqn:E.
  - split; [intros _|reflexivity].
    destruct (in_dec string_dec k (map fst m)) as [Hin|Hnin]; [exact Hin|].
    apply map_has_false in Hnin. congruence.
  - apply map_has_false in E. split; [discriminate|tauto].
Qed.

Lemma map_delete_absent (k : string) (m : list (string * value)) :
  ~ In k (map fst m) -> map_delete k m = m.
Proof.
  unfold map_delete. induction m as [|[k' v] m IH]; simpl; intros Hn; [reflexivity|].
  destruct (String.eqb_spec k' k) as [->|Hne]; simpl; [tauto|].
  rewrite IH by tauto. reflexivity.
Qed.

Lemma map_delete_keys (k k' : string) (m : list (string * value)) :
  In k' (map fst (map_delete k m)) <-> k' <> k /\ In k' (map fst m).
Proof.
  unfold map_delete. induction m as [|[k0 v] m IH]; simpl; [tauto|].
  destruct (String.eqb_spec k0 k) as [->|Hne]; simpl; rewrite IH;
    intuition congruence.
Qed.

Lemma map_has_append (k : string) (v : value) (m : list (string * value)) :
  map_has k (map_append k v m) = true.
Proof.
  apply map_has_true. unfold map_append. rewrite map_app, in_app_iff.
  right. left. reflexivity.
Qed.

Lemma map_get_append (k : string) (v : value) (m : list (string * value)) :
  ~ In k (map fst m) -> map_get k (map_append k v m) = Some v.
Proof.
  unfold map_append. induction m as [|[k' v'] m IH]; simpl; intros Hn.
  - rewrite String.eqb_refl. reflexivity.
  - destruct (String.eqb_spec k' k) as [->|Hne]; [tauto|]. apply IH. tauto.
Qed.

(** The entries of [set]'s intermediate map never include the key. *)
Lemma LRU_set_shape (c : LRU) (key : string) (v : value) :
  exists m, cache (LRU_set c key v) = map_append key v m /\ ~ In key (map fst m).
Proof.
  unfold LRU_set. eexists. split; [reflexivity|].
  destruct (map_has key (cache c)) eqn:Hhas.
  - rewrite map_delete_keys. tauto.
  - apply map_has_false in Hhas.
    destruct (maxSize c <=? _); [|exact Hhas].
    destruct (cache c) as [|[firstKey v0] m] eqn:Hc; [exact Hhas|].
    rewrite map_delete_keys. tauto.
Qed.

Lemma LRU_has_set (c : LRU) (key : string) (v : value) :
  LRU_has (LRU_set c key v) key = true.
Proof.
  destruct (LRU_set_shape c key v) as (m & Hm & _).
  unfold LRU_has. rewrite Hm. apply map_has_append.
Qed.

Lemma LRU_get_set (c : LRU) (key : string) (v : value) :
  snd (LRU_get (LRU_set c key v) key) = v.
Proof.
  unfold LRU_get.
  destruct (LRU_set_shape c key v) as (m & Hm & Hn).
  rewrite Hm, map_has_append, map_get_append by exact Hn. reflexivity.
Qed.

Lemma LRU_set_maxSize (c : LRU) (key : string) (v : value) :
  maxSize (LRU_set c key v) = maxSize c.
Proof. reflexivity. Qed.

Lemma LRU_get_maxSize (c : LRU) (key : string) :
  maxSize (fst (LRU_get c key)) = maxSize c.
Proof. unfold LRU_get. destruct (negb _); reflexivity. Qed.

Lemma LRU_set_all_snoc (c : LRU) (entries : list (string * value)) (k : string) (v : value) :
  LRU_set_all c (entries ++ [(k, v)]) = LRU_set (LRU_set_all c entries) k v.
Proof. unfold LRU_set_all. rewrite fold_left_app. reflexivity. Qed.

(** Filling an empty store of capacity at least one with distinct keys
    leaves the last [maxSize] entries, oldest first. *)
Lemma LRU_set_all_fresh (C : N) (entries : list (string * value)) :
  1 <= C ->
  NoDup (map fst entries) ->
  cache (LRU_set_all (LRU_new C) entries)
  = drop (length entries - N.to_nat C) entries.
Proof.
  intros HC. induction entries as [|[k v] entries IH] using rev_ind; intros Hnd.
  - reflexivity.
  - rewrite map_app in Hnd. apply NoDup_app in Hnd as (Hnd & Hfresh & _).
    assert (Hk : ~ In k (map fst entries)).
    { intros Hin. apply list_elem_of_In in Hin. apply (Hfresh k Hin). simpl. left. }
    specialize (IH Hnd).
    rewrite LRU_set_all_snoc. unfold LRU_set.
    assert (Hmax : maxSize (LRU_set_all (LRU_new C) entries) = C).
    { clear. induction entries as [|e entries IH] using rev_ind; [reflexivity|].
      destruct e. rewrite LRU_set_all_snoc. exact IH. }
    rewrite Hmax, IH. simpl.
    assert (Hk' : ~ In k (map fst (drop (length entries - N.to_nat C) entries))).
    { intros Hin. apply Hk. rewrite <- (take_drop (length entries - N.to_nat C) entries).
      rewrite map_app, in_app_iff. right. exact Hin. }
    apply map_has_false in Hk'. rewrite Hk'.
    rewrite length_drop, length_app. simpl.
    destruct (N.leb_spec C (N.of_nat (length entries - (length entries - N.to_nat C))))
      as [Hfull|Hroom].
    + assert (Hlen : (N.to_nat C <= length entries)%nat) by lia.
      destruct (drop (length entries - N.to_nat C) entries) as [|[k0 v0] m] eqn:Hd.
      { apply (f_equal length) in Hd. rewrite length_drop in Hd. simpl in Hd. lia. }
      assert (Hnd' : NoDup (map fst ((k0, v0) :: m))).
      { rewrite <- Hd. rewrite <- (take_drop (length entries - N.to_nat C) entries) in Hnd.
        rewrite map_app in Hnd. apply NoDup_app in Hnd as (_ & _ & Hnd). exact Hnd. }
      simpl in Hnd'. apply NoDup_cons in Hnd' as (Hk0 & _).
      unfold map_delete at 1. simpl. rewrite String.eqb_refl. simpl.
      fold (map_delete k0 m). rewrite map_delete_absent.
      2:{ intros Hin. apply Hk0. apply list_elem_of_In. exact Hin. }
      unfold map_append.
      replace (length entries + 1 - N.to_nat C)%nat
        with (length entries - N.to_nat C + 1)%nat by lia.
      rewrite drop_app_le by lia.
      rewrite <- drop_drop, Hd. reflexivity.
    + unfold map_append.
      replace (length entries + 1 - N.to_nat C)%nat with 0%nat by lia.
      replace (length entries - N.to_nat C)%nat with 0%nat by lia.
      reflexivity.
Qed.

(** C5 (as amended).  A store of capacity [C >= 1], empty at first, after
    [C + 1] calls of [set] with distinct keys: the first key is gone and
    the [C] others are there. *)
Theorem lru_evicts_first_inserted (C : N) (k0 : string) (v0 : value)
    (others : list (string * value)) :
  1 <= C ->
  NoDup (k0 :: map fst others) ->
  length others = N.to_nat C ->
  LRU_has (LRU_set_all (LRU_new C) ((k0, v0) :: others)) k0 = false /\
  forall k, In k (map fst others) ->
            LRU_has (LRU_set_all (LRU_new C) ((k0, v0) :: others)) k = true.
Proof.
  intros HC Hnd Hlen. unfold LRU_has.
  rewrite LRU_set_all_fresh by assumption.
  simpl length. replace (S (length others) - N.to_nat C)%nat with 1%nat by lia.
  simpl. apply NoDup_cons in Hnd as (Hk0 & _). split.
  - apply map_has_false. intros Hin. apply Hk0, list_elem_of_In, Hin.
  - intros k Hk. apply map_has_true, Hk.
Qed.

(** *** Bits *)

Lemma land_one_bit (a n : N) :
  (N.land a (N.shiftl 1 n) =? 0) = negb (N.testbit a n).
Proof.
  rewrite N.shiftl_1_l.
  destruct (N.testbit a n) eqn:E; simpl.
  - apply N.eqb_neq. intros Hz.
    assert (Hb : N.testbit (N.land a (2 ^ n)) n = true).
    { rewrite N.land_spec, E, N.pow2_bits_true. reflexivity. }
    rewrite Hz, N.bits_0 in Hb. discriminate.
  - apply N.eqb_eq. apply N.bits_inj. intros m.
    rewrite N.land_spec, N.bits_0, N.pow2_bits_eqb.
    destruct (N.eqb_spec n m) as [->|]; [rewrite E|]; apply andb_false_r || reflexivity.
Qed.

Lemma or_bit_spec (n old k : N) :
  N.testbit (or_bit n old) k = (k <? 8) && (N.testbit old k || (n =? k)).
Proof.
  unfold or_bit. change 256 with (2 ^ 8).
  destruct (N.ltb_spec k 8) as [Hk|Hk]; simpl.
  - rewrite N.mod_pow2_bits_low by exact Hk.
    rewrite N.lor_spec, N.shiftl_1_l, N.pow2_bits_eqb. reflexivity.
  - apply N.mod_pow2_bits_high. exact Hk.
Qed.

Lemma mod8_lt (n : N) : n mod 8 < 8.
Proof. apply N.mod_lt. discriminate. Qed.

Lemma test_bit_bit_at (b : BloomFilter) (item : string) (i : nat) :
  test_bit b item i =
  match _hash b item i with
  | Some index => bit_at (bits b) index
  | None => false
  end.
Proof.
  unfold test_bit, bit_at. destruct (_hash b item i) as [index|]; [|reflexivity].
  destruct (bits b !! N.to_nat (index / 8)); [|reflexivity].
  rewrite land_one_bit. apply negb_involutive.
Qed.

Lemma set_bit_length (b : BloomFilter) (bs : list N) (item : string) (i : nat) :
  length (set_bit b bs item i) = length bs.
Proof.
  unfold set_bit. destruct (_hash b item i); [|reflexivity].
  destruct (bs !! _); [|reflexivity]. apply length_insert.
Qed.

(** A bit that is set stays set. *)
Lemma set_bit_keeps (b : BloomFilter) (bs : list N) (item : string) (i : nat) (j : N) :
  bit_at bs j = true -> bit_at (set_bit b bs item i) j = true.
Proof.
  unfold set_bit, bit_at. intros Hj.
  destruct (_hash b item i) as [index|]; [|exact Hj].
  destruct (bs !! N.to_nat (index / 8)) as [old|] eqn:Hold; [|exact Hj].
  destruct (decide (N.to_nat (index / 8) = N.to_nat (j / 8))) as [Heq|Hne].
  - rewrite Heq in *. rewrite Hold in Hj.
    rewrite list_lookup_insert_eq by (eapply lookup_lt_Some; eauto).
    rewrite or_bit_spec, Hj. pose proof (mod8_lt j) as Hlt.
    apply N.ltb_lt in Hlt. rewrite Hlt. reflexivity.
  - rewrite list_lookup_insert_ne by exact Hne. exact Hj.
Qed.

(** The bit written is set afterwards, when it lies inside the array. *)
Lemma set_bit_sets (b : BloomFilter) (bs : list N) (item : string) (i : nat) (index : N) :
  _hash b item i = Some index ->
  (N.to_nat (index / 8) < length bs)%nat ->
  bit_at (set_bit b bs item i) index = true.
Proof.
  unfold set_bit, bit_at. intros -> Hlt.
  destruct (lookup_lt_is_Some_2 bs _ Hlt) as [old Hold]. rewrite Hold.
  rewrite list_lookup_insert_eq by exact Hlt.
  rewrite or_bit_spec, N.eqb_refl, orb_true_r.
  pose proof (mod8_lt index) as Hb. apply N.ltb_lt in Hb. rewrite Hb. reflexivity.
Qed.

Lemma set_bits_length (b : BloomFilter) (item : string) (l : list nat) (bs : list N) :
  length (fold_left (fun bits i => set_bit b bits item i) l bs) = length bs.
Proof.
  revert bs. induction l as [|i l IH]; intros bs; simpl; [reflexivity|].
  rewrite IH. apply set_bit_length.
Qed.

Lemma set_bits_keeps (b : BloomFilter) (item : string) (l : list nat) (bs : list N) (j : N) :
  bit_at bs j = true ->
  bit_at (fold_left (fun bits i => set_bit b bits item i) l bs) j = true.
Proof.
  revert bs. induction l as [|i l IH]; intros bs Hj; simpl; [exact Hj|].
  apply IH. apply set_bit_keeps. exact Hj.
Qed.

Lemma set_bits_sets (b : BloomFilter) (item : string) (l : list nat) (bs : list N)
    (i : nat) (index : N) :
  In i l ->
  _hash b item i = Some index ->
  (N.to_nat (index / 8) < length bs)%nat ->
  bit_at (fold_left (fun bits i => set_bit b bits item i) l bs) index = true.
Proof.
  revert bs. induction l as [|i' l IH]; intros bs Hin Hh Hlt; simpl; [destruct Hin|].
  destruct Hin as [->|Hin].
  - apply set_bits_keeps. apply set_bit_sets; assumption.
  - apply IH; try assumption. rewrite set_bit_length. exact Hlt.
Qed.

(** *** The filter *)

Lemma hash_in_range (b : BloomFilter) (item : string) (i : nat) :
  wf_filter b ->
  exists index, _hash b item i = Some index /\
                (N.to_nat (index / 8) < length (bits b))%nat.
Proof.
  intros [Hpos Hlen]. unfold _hash.
  destruct (N.eqb_spec (size b) 0) as [E|_]; [lia|].
  eexists. split; [reflexivity|].
  rewrite Hlen. unfold ceil_div8.
  pose proof (N.mod_lt (sha256_u32 (item ++ toString i)) (size b) ltac:(lia)) as Hm.
  set (x := sha256_u32 (item ++ toString i) mod size b) in *.
  assert (x / 8 < (size b + 7) / 8); [|lia].
  apply N.Div0.div_lt_upper_bound.
  pose proof (N.Div0.mul_div_le (size b + 7) 8).
  pose proof (N.Div0.div_mod (size b + 7) 8).
  pose proof (mod8_lt (size b + 7)). lia.
Qed.

Lemma hash_same_size (b b' : BloomFilter) (item : string) (i : nat) :
  size b' = size b -> _hash b' item i = _hash b item i.
Proof. unfold _hash. intros ->. reflexivity. Qed.

Lemma add_wf (b : BloomFilter) (item : string) :
  wf_filter b -> wf_filter (BloomFilter_add b item).
Proof.
  intros [Hpos Hlen]. split; simpl; [exact Hpos|].
  rewrite set_bits_length. exact Hlen.
Qed.

Lemma adds_wf (items : list string) (b : BloomFilter) :
  wf_filter b -> wf_filter (fold_left BloomFilter_add items b).
Proof.
  revert b. induction items as [|x items IH]; intros b Hwf; simpl; [exact Hwf|].
  apply IH, add_wf, Hwf.
Qed.

Lemma new_wf (size : N) (numHashes : nat) :
  0 < size -> wf_filter (BloomFilter_new size numHashes).
Proof.
  intros Hpos. split; simpl; [exact Hpos|]. apply length_replicate.
Qed.

Lemma add_has_bits (b : BloomFilter) (item : string) :
  wf_filter b -> has_bits_of (BloomFilter_add b item) item.
Proof.
  intros Hwf i index Hi Hh. simpl in *.
  rewrite (hash_same_size b) in Hh by reflexivity.
  destruct (hash_in_range b item i Hwf) as (index' & Hh' & Hlt).
  rewrite Hh in Hh'. injection Hh' as <-.
  eapply set_bits_sets; eauto. apply in_seq. lia.
Qed.

Lemma add_keeps_bits (b : BloomFilter) (item other : string) :
  has_bits_of b item -> has_bits_of (BloomFilter_add b other) item.
Proof.
  intros Hb i index Hi Hh. simpl in *.
  rewrite (hash_same_size b) in Hh by reflexivity.
  apply set_bits_keeps. eapply Hb; eauto.
Qed.

Lemma adds_keep_bits (items : list string) (b : BloomFilter) (item : string) :
  has_bits_of b item -> has_bits_of (fold_left BloomFilter_add items b) item.
Proof.
  revert b. induction items as [|x items IH]; intros b Hb; simpl; [exact Hb|].
  apply IH, add_keeps_bits, Hb.
Qed.

Lemma mightContain_of_bits (b : BloomFilter) (item : string) :
  wf_filter b -> has_bits_of b item -> BloomFilter_mightContain b item = true.
Proof.
  intros Hwf Hb. unfold BloomFilter_mightContain.
  apply forallb_forall. intros i Hi. apply in_seq in Hi.
  rewrite test_bit_bit_at.
  destruct (hash_in_range b item i Hwf) as (index & Hh & _).
  rewrite Hh. eapply Hb; eauto. lia.
Qed.

(** No false negatives on a well-formed filter. *)
Lemma wf_no_false_negatives (b : BloomFilter) (k : string) (later : list string) :
  wf_filter b ->
  BloomFilter_mightContain (fold_left BloomFilter_add later (BloomFilter_add b k)) k = true.
Proof.
  intros Hwf. apply mightContain_of_bits.
  - apply adds_wf, add_wf, Hwf.
  - apply adds_keep_bits, add_has_bits, Hwf.
Qed.

(** C2 (as amended).  On a filter constructed with a size of at least one,
    a key passed to [add] is reported by [mightContain] after any further
    calls of [add]. *)
Theorem bloom_no_false_negatives (size : N) (numHashes : nat)
    (before : list string) (k : string) (later : list string) :
  1 <= size ->
  BloomFilter_mightContain
    (fold_left BloomFilter_add later
       (BloomFilter_add
          (fold_left BloomFilter_add before (BloomFilter_new size numHashes)) k))
    k = true.
Proof.
  intros Hsize. apply wf_no_false_negatives, adds_wf, new_wf. lia.
Qed.

(** *** Adding a key again *)

Lemma or_bit_idem (n old : N) : or_bit n (or_bit n old) = or_bit n old.
Proof.
  apply N.bits_inj. intros k. rewrite !or_bit_spec.
  destruct (k <? 8), (N.testbit old k), (n =? k); reflexivity.
Qed.

Lemma or_bit_comm (n m old : N) : or_bit n (or_bit m old) = or_bit m (or_bit n old).
Proof.
  apply N.bits_inj. intros k. rewrite !or_bit_spec.
  destruct (k <? 8), (N.testbit old k), (n =? k), (m =? k); reflexivity.
Qed.

Lemma set_bit_alter (b : BloomFilter) (bs : list N) (item : string) (i : nat) :
  set_bit b bs item i =
  match _hash b item i with
  | Some index => alter (or_bit (index mod 8)) (N.to_nat (index / 8)) bs
  | None => bs
  end.
Proof.
  unfold set_bit. destruct (_hash b item i) as [index|]; [|reflexivity].
  apply list_eq. intros j.
  destruct (decide (N.to_nat (index / 8) = j)) as [<-|Hne].
  - rewrite list_lookup_alter_eq.
    destruct (bs !! N.to_nat (index / 8)) as [old|] eqn:Hold; simpl.
    + rewrite list_lookup_insert_eq by (eapply lookup_lt_Some; eauto). reflexivity.
    + exact Hold.
  - rewrite list_lookup_alter_ne by exact Hne.
    destruct (bs !! N.to_nat (index / 8)); [|reflexivity].
    apply list_lookup_insert_ne. exact Hne.
Qed.

Lemma set_bit_same_size (b b' : BloomFilter) (bs : list N) (item : string) (i : nat) :
  size b' = size b -> set_bit b' bs item i = set_bit b bs item i.
Proof. intros Hs. unfold set_bit. rewrite (hash_same_size b b') by exact Hs. reflexivity. Qed.

Lemma set_bit_idem (b : BloomFilter) (bs : list N) (item : string) (i : nat) :
  set_bit b (set_bit b bs item i) item i = set_bit b bs item i.
Proof.
  rewrite !set_bit_alter. destruct (_hash b item i) as [index|]; [|reflexivity].
  rewrite list_alter_alter_eq. apply list_alter_ext; [|reflexivity].
  intros old _. apply or_bit_idem.
Qed.

Lemma set_bit_comm (b : BloomFilter) (bs : list N) (x y : string) (i j : nat) :
  set_bit b (set_bit b bs x i) y j = set_bit b (set_bit b bs y j) x i.
Proof.
  rewrite !set_bit_alter.
  destruct (_hash b x i) as [ix|], (_hash b y j) as [iy|]; try reflexivity.
  destruct (decide (N.to_nat (iy / 8) = N.to_nat (ix / 8))) as [Heq|Hne].
  - rewrite Heq, !list_alter_alter_eq. apply list_alter_ext; [|reflexivity].
    intros old _. apply or_bit_comm.
  - apply list_alter_alter_ne. exact Hne.
Qed.

Lemma set_bits_push (b : BloomFilter) (x y : string) (j : nat) (l : list nat) (bs : list N) :
  set_bit b (fold_left (fun bits i => set_bit b bits x i) l bs) y j
  = fold_left (fun bits i => set_bit b bits x i) l (set_bit b bs y j).
Proof.
  revert bs. induction l as [|i l IH]; intros bs; simpl; [reflexivity|].
  rewrite IH, set_bit_comm. reflexivity.
Qed.

Lemma set_bits_idem (b : BloomFilter) (x : string) (l : list nat) (bs : list N) :
  fold_left (fun bits i => set_bit b bits x i) l
            (fold_left (fun bits i => set_bit b bits x i) l bs)
  = fold_left (fun bits i => set_bit b bits x i) l bs.
Proof.
  revert bs. induction l as [|i l IH]; intros bs; simpl; [reflexivity|].
  rewrite set_bits_push, set_bit_idem. apply IH.
Qed.

Lemma fold_left_pointwise {A B : Type} (f g : A -> B -> A) (l : list B) (a : A) :
  (forall x y, f x y = g x y) -> fold_left f l a = fold_left g l a.
Proof.
  intros Hfg. revert a. induction l as [|y l IH]; intros a; simpl; [reflexivity|].
  rewrite Hfg. apply IH.
Qed.

Lemma add_twice_bits (b : BloomFilter) (k : string) :
  bits (BloomFilter_add (BloomFilter_add b k) k) = bits (BloomFilter_add b k).
Proof.
  simpl.
  rewrite (fold_left_pointwise _ (fun bits i => set_bit b bits k i)).
  - apply set_bits_idem.
  - intros bs i. apply set_bit_same_size. reflexivity.
Qed.

Lemma mightContain_ext (b b' : BloomFilter) (item : string) :
  size b' = size b -> numHashes b' = numHashes b -> bits b' = bits b ->
  BloomFilter_mightContain b' item = BloomFilter_mightContain b item.
Proof.
  intros Hs Hn Hb. unfold BloomFilter_mightContain. rewrite Hn.
  induction (seq 0 (numHashes b)) as [|i l IH]; simpl; [reflexivity|].
  rewrite IH. f_equal. unfold test_bit.
  rewrite (hash_same_size b b') by exact Hs. rewrite Hb. reflexivity.
Qed.

(** C7 (as amended).  Adding a key a second time leaves the bit array, the
    size and the hash count as they were after the first time, so
    [mightContain] answers the same for every key; [itemCount], which
    [estimateFPR] reads, is one higher. *)
Theorem bloom_add_again_keeps_bits (b : BloomFilter) (k : string) :
  bits (BloomFilter_add (BloomFilter_add b k) k) = bits (BloomFilter_add b k) /\
  size (BloomFilter_add (BloomFilter_add b k) k) = size (BloomFilter_add b k) /\
  numHashes (BloomFilter_add (BloomFilter_add b k) k) = numHashes (BloomFilter_add b k) /\
  (forall k', BloomFilter_mightContain (BloomFilter_add (BloomFilter_add b k) k) k'
              = BloomFilter_mightContain (BloomFilter_add b k) k') /\
  itemCount (BloomFilter_add (BloomFilter_add b k) k)
  = S (itemCount (BloomFilter_add b k)).
Proof.
  repeat split; try apply add_twice_bits.
  intros k'. apply mightContain_ext; try reflexivity. apply add_twice_bits.
Qed.

(** *** The cascade *)

(** What a settled [get] can have done to the existence sets: nothing, or
    one insertion of its key into a set while the other set lacks it. *)
Lemma get_sets (s : FastLookup) (k : string) (draw : float) (created : string) :
  let s' := fst (fst (get s k draw created)) in
  (sieve s' = sieve s /\ negative s' = negative s) \/
  (sieve s' = sieve s /\ negative s' = {[k]} ∪ negative s /\ k ∉ sieve s) \/
  (sieve s' = {[k]} ∪ sieve s /\ negative s' = negative s /\ k ∉ negative s).
Proof.
  unfold get, get_begin. simpl.
  destruct (LRU_has (hotCache s) k).
  { destruct (LRU_get (hotCache s) k). simpl. auto. }
  case_bool_decide as Hneg; [simpl; auto|].
  case_bool_decide as Hsieve; [simpl; auto|].
  destruct (BloomFilter_mightContain (bloom s) k); simpl; [|auto].
  destruct (truthy _); simpl; auto.
Qed.

(** *** The existence sets *)

Lemma disjoint_insert_l (X Y : gset string) (k : string) :
  X ∩ Y = ∅ -> k ∉ Y -> ({[k]} ∪ X) ∩ Y = ∅.
Proof.
  intros Hd Hk. apply elem_of_equiv_empty_L. intros x.
  rewrite elem_of_intersection, elem_of_union, elem_of_singleton.
  intros [[->|Hx] Hy]; [exact (Hk Hy)|].
  apply (proj1 (elem_of_equiv_empty_L (X ∩ Y)) Hd x).
  apply elem_of_intersection. split; assumption.
Qed.

Lemma disjoint_insert_r (X Y : gset string) (k : string) :
  X ∩ Y = ∅ -> k ∉ X -> X ∩ ({[k]} ∪ Y) = ∅.
Proof.
  intros Hd Hk. apply elem_of_equiv_empty_L. intros x.
  rewrite elem_of_intersection, elem_of_union, elem_of_singleton.
  intros [Hx [->|Hy]]; [exact (Hk Hx)|].
  apply (proj1 (elem_of_equiv_empty_L (X ∩ Y)) Hd x).
  apply elem_of_intersection. split; assumption.
Qed.

Lemma disjoint_move (X Y : gset string) (k : string) :
  X ∩ Y = ∅ -> ({[k]} ∪ X) ∩ (Y ∖ {[k]}) = ∅.
Proof.
  intros Hd. apply elem_of_equiv_empty_L. intros x.
  rewrite elem_of_intersection, elem_of_union, elem_of_difference, elem_of_singleton.
  intros [[->|Hx] [Hy Hne]]; [exact (Hne eq_refl)|].
  apply (proj1 (elem_of_equiv_empty_L (X ∩ Y)) Hd x).
  apply elem_of_intersection. split; assumption.
Qed.

Lemma run_call_disjoint (s : FastLookup) (c : call) :
  sieve s ∩ negative s = ∅ ->
  sieve (run_call s c) ∩ negative (run_call s c) = ∅.
Proof.
  intros Hd. destruct c as [k draw created|k data|hashes extra|]; simpl.
  - destruct (get_sets s k draw created) as [(-> & ->)|[(-> & -> & Hk)|(-> & -> & Hk)]].
    + exact Hd.
    + apply disjoint_insert_r; assumption.
    + apply disjoint_insert_l; assumption.
  - apply disjoint_move, Hd.
  - exact Hd.
  - apply intersection_empty_l_L.
Qed.

Lemma run_calls_disjoint (s : FastLookup) (calls : list call) :
  sieve s ∩ negative s = ∅ ->
  sieve (run_calls s calls) ∩ negative (run_calls s calls) = ∅.
Proof.
  unfold run_calls. revert s.
  induction calls as [|c calls IH]; intros s Hd; simpl; [exact Hd|].
  apply IH, run_call_disjoint, Hd.
Qed.

(** [add] moves its key: into the sieve, out of the negative set. *)
Lemma add_moves_key (s : FastLookup) (k : string) (data : value) :
  k ∈ sieve (add s k data) /\ k ∉ negative (add s k data).
Proof.
  simpl. split.
  - apply elem_of_union_l, elem_of_singleton. reflexivity.
  - rewrite elem_of_difference, elem_of_singleton. tauto.
Qed.

(** Calls that each settle before the next one starts keep the sieve and
    the negative set disjoint: [get], [add], [preload] and [clear], in any
    number and order; and [add] leaves its key in the sieve and out of the
    negative set. *)
Theorem settled_calls_keep_sets_disjoint (s : FastLookup) (calls : list call) :
  sieve s ∩ negative s = ∅ ->
  sieve (run_calls s calls) ∩ negative (run_calls s calls) = ∅ /\
  forall k data,
    (k ∈ sieve (add (run_calls s calls) k data)) /\
    (k ∉ negative (add (run_calls s calls) k data)).
Proof.
  intros Hd. split; [apply run_calls_disjoint, Hd|].
  intros k data. apply add_moves_key.
Qed.

(** The filter of a lookup only ever changes by [BloomFilter.add]. *)
Lemma run_call_bloom (s : FastLookup) (c : call) :
  exists items, bloom (run_call s c) = fold_left BloomFilter_add items (bloom s).
Proof.
  destruct c as [k draw created|k data|hashes extra|]; simpl.
  - unfold get, get_begin. simpl.
    destruct (LRU_has (hotCache s) k).
    { destruct (LRU_get (hotCache s) k). exists []. reflexivity. }
    case_bool_decide; [exists []; reflexivity|].
    case_bool_decide; [exists []; reflexivity|].
    destruct (BloomFilter_mightContain (bloom s) k); simpl; [|exists []; reflexivity].
    destruct (truthy _); simpl; [exists [k]|exists []]; reflexivity.
  - exists [k]. reflexivity.
  - eexists. reflexivity.
  - exists []. reflexivity.
Qed.

Lemma run_calls_bloom (calls : list call) (s : FastLookup) :
  exists items, bloom (run_calls s calls) = fold_left BloomFilter_add items (bloom s).
Proof.
  unfold run_calls. revert s.
  induction calls as [|c calls IH]; intros s; simpl; [exists []; reflexivity|].
  destruct (IH (run_call s c)) as (later & Hlater).
  destruct (run_call_bloom s c) as (first & Hfirst).
  exists (first ++ later)%list. rewrite Hlater, Hfirst, fold_left_app. reflexivity.
Qed.

Lemma or_default_pos (x : option N) (d : N) : 0 < d -> 0 < or_default x d.
Proof.
  intros Hd. unfold or_default. destruct x as [n|]; [|exact Hd].
  destruct (N.eqb_spec n 0); lia.
Qed.

(** Inside a lookup, whose filter always has a positive size: a key given
    to [add] passes the filter after any settled calls, [clear] included. *)
Lemma added_key_stays_in_filter (options : Options) (before : list call)
    (k : string) (data : value) (later : list call) :
  BloomFilter_mightContain
    (bloom (run_calls (add (run_calls (FastLookup_new options) before) k data) later))
    k = true.
Proof.
  destruct (run_calls_bloom later (add (run_calls (FastLookup_new options) before) k data))
    as (items2 & ->).
  simpl bloom at 1.
  destruct (run_calls_bloom before (FastLookup_new options)) as (items1 & ->).
  apply wf_no_false_negatives, adds_wf, new_wf, or_default_pos. reflexivity.
Qed.

(** C3.  A key in the negative set and not in the hot cache: [get] returns
    [null] before reaching any [await], so [fetchFromIndex] is not called;
    only the two counters change. *)
Theorem negative_hit_skips_store (s : FastLookup) (k : string)
    (draw : float) (created : string) :
  LRU_has (hotCache s) k = false ->
  k ∈ negative s ->
  get_begin s k
    = Returned (with_stats s (inc_negativeHits (inc_lookups (stats s)))) VNull /\
  get s k draw created
    = (with_stats s (inc_negativeHits (inc_lookups (stats s))), Resolved VNull, []).
Proof.
  intros Hhot Hneg.
  assert (Hb : get_begin s k
    = Returned (with_stats s (inc_negativeHits (inc_lookups (stats s)))) VNull).
  { unfold get_begin. simpl. rewrite Hhot.
    rewrite bool_decide_eq_true_2 by exact Hneg. reflexivity. }
  split; [exact Hb|]. unfold get. rewrite Hb. reflexivity.
Qed.

(** C4.  Right after [add(k, r)], [get(k)] takes the hot-cache branch: it
    resolves to [r] without reaching an [await], so [fetchFromIndex] is not
    called. *)
Theorem add_then_get_hits_hot_cache (s : FastLookup) (k : string) (r : value)
    (draw : float) (created : string) :
  exists s',
    get_begin (add s k r) k = Returned s' r /\
    get (add s k r) k draw created = (s', Resolved r, []) /\
    hotHits (stats s') = S (hotHits (stats s)) /\
    fetches (stats s') = fetches (stats s).
Proof.
  unfold get, get_begin, add. simpl.
  rewrite LRU_has_set.
  pose proof (LRU_get_set (hotCache s) k r) as Hget.
  destruct (LRU_get (LRU_set (hotCache s) k r) k) as [hot v]. simpl in Hget. subst v.
  eexists. repeat split.
Qed.

(** The [try]/[finally] of [get] has no [catch]: were the promise of the
    awaited fetch to reject, [get] would reject with the same error, the
    negative set would be as it was before the call and would not hold the
    key, and calling [get] again would reach the same [await] again. *)
Theorem failed_fetch_rejects_get (s : FastLookup) (k : string)
    (s' : FastLookup) (site : fetch_site) (e : string) :
  get_begin s k = Awaiting s' site ->
  get_resume s' site k (Failed e) = (s', Rejected e) /\
  (forall v, Rejected e <> Resolved v) /\
  negative s' = negative s /\
  (k ∉ negative s') /\
  exists s'', get_begin s' k = Awaiting s'' site.
Proof.
  unfold get_begin. simpl.
  destruct (LRU_has (hotCache s) k) eqn:Hhot.
  { destruct (LRU_get (hotCache s) k). discriminate. }
  case_bool_decide as Hneg; [discriminate|].
  case_bool_decide as Hsieve.
  - intros [= <- <-]. simpl. rewrite Hhot.
    rewrite bool_decide_eq_false_2 by exact Hneg.
    rewrite bool_decide_eq_true_2 by exact Hsieve.
    repeat split; try assumption; try discriminate. eexists. reflexivity.
  - destruct (BloomFilter_mightContain (bloom s) k) eqn:Hbloom; simpl; [|discriminate].
    intros [= <- <-]. simpl. rewrite Hhot, Hbloom.
    rewrite bool_decide_eq_false_2 by exact Hneg.
    rewrite bool_decide_eq_false_2 by exact Hsieve.
    repeat split; try assumption; try discriminate. eexists. reflexivity.
Qed.





(** *** clear *)

(** C9. [clear()] leaves the hot cache and both existence sets empty and
    does not touch the filter: its size, hash count, bit array and item
    count are those from before the call, so [mightContain] answers the
    same for every key and [estimateFPR] reads the same numbers. *)
Theorem clear_empties_caches_keeps_filter (s : FastLookup) :
  cache (hotCache (clear s)) = [] /\
  sieve (clear s) = ∅ /\
  negative (clear s) = ∅ /\
  bloom (clear s) = bloom s /\
  (forall k, BloomFilter_mightContain (bloom (clear s)) k
             = BloomFilter_mightContain (bloom s) k) /\
  estimateFPR_inputs (bloom (clear s)) = estimateFPR_inputs (bloom s).
Proof. repeat split. Qed.

(** *** Capacity of the hot cache *)

Lemma get_begin_capacity (s : FastLookup) (k : string) :
  match get_begin s k with
  | Returned s' _ | Awaiting s' _ => maxSize (hotCache s') = maxSize (hotCache s)
  end.
Proof.
  unfold get_begin. simpl.
  destruct (LRU_has (hotCache s) k).
  { pose proof (LRU_get_maxSize (hotCache s) k) as Hm.
    destruct (LRU_get (hotCache s) k). exact Hm. }
  repeat (case_bool_decide; [reflexivity|]).
  destruct (BloomFilter_mightContain (bloom s) k); reflexivity.
Qed.

Lemma get_resume_capacity (s : FastLookup) (site : fetch_site) (k : string) (r : fetched) :
  maxSize (hotCache (fst (get_resume s site k r))) = maxSize (hotCache s).
Proof.
  destruct r as [v|e]; [|reflexivity]. destruct site; simpl; [reflexivity|].
  destruct (truthy v); reflexivity.
Qed.

(** Every call other than [clear] keeps the capacity given to the
    constructor; [clear] sets it to 10000. *)
Lemma run_call_capacity (s : FastLookup) (c : call) :
  maxSize (hotCache (run_call s c))
  = match c with CallClear => 10000 | _ => maxSize (hotCache s) end.
Proof.
  destruct c as [k draw created|k data|hashes extra|]; try reflexivity.
  simpl. unfold get. pose proof (get_begin_capacity s k) as Hb.
  destruct (get_begin s k) as [s' v|s' site]; [exact Hb|].
  pose proof (get_resume_capacity s' site k
                (Fulfilled (fetchFromIndex s' k draw created))) as Hr.
  destruct (get_resume s' site k _). simpl in *. congruence.
Qed.

(** A settled [get] is a [get] whose timer fires before anything else
    happens. *)
Lemma settled_get_in_the_loop (s : FastLookup) (k : string) (draw : float)
    (created : string) :
  registry (run_events (mkLoop s []) [Get k; Timer 0 draw created])
  = fst (fst (get s k draw created)).
Proof.
  unfold get. simpl.
  destruct (get_begin s k) as [s' v|s' site]; simpl; [reflexivity|].
  destruct site; [reflexivity|].
  destruct (truthy (fetchFromIndex s' k draw created)); reflexivity.
Qed.

(** C10.  A key that is in neither cache nor set, passes the filter and is
    not in the index: the same call of [get] on the same state resolves to
    [null] and puts the key in the negative set when the draw is below 0.1,
    and resolves to a made-up record and puts the key in the sieve when it
    is not.  [fetchFromIndex] is called once either way. *)
Theorem cold_miss_follows_the_draw (s : FastLookup) (k created : string)
    (low high : float) :
  LRU_has (hotCache s) k = false ->
  k ∉ negative s ->
  k ∉ sieve s ->
  BloomFilter_mightContain (bloom s) k = true ->
  index s !! k = None ->
  PrimFloat.ltb low one_tenth = true ->
  PrimFloat.ltb high one_tenth = false ->
  (snd (fst (get s k low created)) = Resolved VNull /\
   (k ∈ negative (fst (fst (get s k low created)))) /\
   (k ∉ sieve (fst (fst (get s k low created)))) /\
   snd (get s k low created) = [k]) /\
  (snd (fst (get s k high created)) = Resolved (mock_record k created) /\
   (k ∈ sieve (fst (fst (get s k high created)))) /\
   (k ∉ negative (fst (fst (get s k high created)))) /\
   snd (get s k high created) = [k]).
Proof.
  intros Hhot Hneg Hsieve Hbloom Hindex Hlow Hhigh.
  unfold get, get_begin. simpl. rewrite Hhot, Hbloom.
  rewrite !(bool_decide_eq_false_2 _ Hneg), !(bool_decide_eq_false_2 _ Hsieve).
  simpl. unfold fetchFromIndex. simpl. rewrite Hindex, Hlow, Hhigh. simpl.
  repeat split; try assumption; apply elem_of_union_l, elem_of_singleton; reflexivity.
Qed.

(** ** Further properties of the three classes *)

(** *** LRU: size, order and contents *)

Lemma map_get_none (k : string) (m : list (string * value)) :
  map_has k m = false -> map_get k m = None.
Proof.
  unfold map_has. induction m as [|[k' v] m IH]; simpl; [reflexivity|].
  destruct (String.eqb k' k); simpl; [discriminate|exact IH].
Qed.

Lemma map_get_some (k : string) (m : list (string * value)) :
  map_has k m = true -> exists v, map_get k m = Some v.
Proof.
  unfold map_has. induction m as [|[k' v] m IH]; simpl; [discriminate|].
  destruct (String.eqb k' k); simpl; [eexists; reflexivity|exact IH].
Qed.

Lemma map_get_delete_ne (k k' : string) (m : list (string * value)) :
  k' <> k -> map_get k' (map_delete k m) = map_get k' m.
Proof.
  intros Hne. unfold map_delete. induction m as [|[k0 v] m IH]; simpl; [reflexivity|].
  destruct (String.eqb_spec k0 k) as [->|Hk0]; simpl.
  - destruct (String.eqb_spec k k'); [congruence|exact IH].
  - rewrite IH. reflexivity.
Qed.

Lemma map_get_append_ne (k k' : string) (v : value) (m : list (string * value)) :
  k' <> k -> map_get k' (map_append k v m) = map_get k' m.
Proof.
  intros Hne. unfold map_append. induction m as [|[k0 v0] m IH]; simpl.
  - destruct (String.eqb_spec k k'); [congruence|reflexivity].
  - rewrite IH. reflexivity.
Qed.

Lemma map_delete_nodup (k : string) (m : list (string * value)) :
  NoDup (map fst m) -> NoDup (map fst (map_delete k m)).
Proof.
  unfold map_delete. induction m as [|[k0 v] m IH]; simpl; intros Hnd; [exact Hnd|].
  apply NoDup_cons in Hnd as (Hk0 & Hnd).
  destruct (String.eqb k0 k); simpl; [apply IH, Hnd|].
  apply NoDup_cons. split; [|apply IH, Hnd].
  intros Hin. apply Hk0. apply list_elem_of_In in Hin. apply list_elem_of_In.
  apply (map_delete_keys k k0 m) in Hin. tauto.
Qed.

Lemma map_delete_length (k : string) (m : list (string * value)) :
  NoDup (map fst m) -> map_has k m = true ->
  S (length (map_delete k m)) = length m.
Proof.
  unfold map_delete, map_has.
  induction m as [|[k0 v] m IH]; simpl; intros Hnd Hhas; [discriminate|].
  apply NoDup_cons in Hnd as (Hk0 & Hnd).
  destruct (String.eqb_spec k0 k) as [->|Hne]; simpl.
  - fold (map_delete k m). rewrite map_delete_absent; [reflexivity|].
    intros Hin. apply Hk0, list_elem_of_In, Hin.
  - rewrite IH by assumption. reflexivity.
Qed.

Lemma map_append_nodup (k : string) (v : value) (m : list (string * value)) :
  NoDup (map fst m) -> ~ In k (map fst m) -> NoDup (map fst (map_append k v m)).
Proof.
  intros Hnd Hk. unfold map_append. rewrite map_app. apply NoDup_app.
  split; [exact Hnd|]. split.
  - intros x Hx Hx'. apply list_elem_of_In in Hx.
    apply list_elem_of_In in Hx'. simpl in Hx'. destruct Hx' as [<-|[]]. tauto.
  - simpl. apply NoDup_cons. split; [apply not_elem_of_nil|apply NoDup_nil_2].
Qed.

Lemma LRU_set_bounded (c : LRU) (key : string) (v : value) :
  lru_bounded c -> lru_bounded (LRU_set c key v).
Proof.
  intros [Hnd Hlen]. unfold lru_bounded, LRU_set. simpl.
  destruct (map_has key (cache c)) eqn:Hhas.
  - split.
    + apply map_append_nodup; [apply map_delete_nodup, Hnd|].
      rewrite map_delete_keys. tauto.
    + unfold map_append. rewrite length_app. simpl.
      pose proof (map_delete_length key (cache c) Hnd Hhas). lia.
  - pose proof (proj1 (map_has_false key (cache c)) Hhas) as Hk.
    destruct (N.leb_spec (maxSize c) (N.of_nat (length (cache c)))) as [Hfull|Hroom].
    + destruct (cache c) as [|[firstKey v0] m] eqn:Hc.
      * split; [apply map_append_nodup; assumption|]. simpl. lia.
      * simpl in Hnd. pose proof Hnd as Hnd0. apply NoDup_cons in Hnd0 as (Hf & Hm).
        assert (Hdel : map_delete firstKey ((firstKey, v0) :: m) = m).
        { unfold map_delete. simpl. rewrite String.eqb_refl. simpl.
          apply map_delete_absent. intros Hin. apply Hf, list_elem_of_In, Hin. }
        rewrite Hdel. split.
        -- apply map_append_nodup; [exact Hm|]. simpl in Hk. tauto.
        -- unfold map_append. rewrite length_app. simpl in *. lia.
    + split; [apply map_append_nodup; assumption|].
      unfold map_append. rewrite length_app. simpl. lia.
Qed.

Lemma LRU_get_bounded (c : LRU) (key : string) :
  lru_bounded c -> lru_bounded (fst (LRU_get c key)).
Proof.
  intros [Hnd Hlen]. unfold LRU_get.
  destruct (map_has key (cache c)) eqn:Hhas; simpl; [|split; assumption].
  split; simpl.
  - apply map_append_nodup; [apply map_delete_nodup, Hnd|].
    rewrite map_delete_keys. tauto.
  - unfold map_append. rewrite length_app. simpl.
    pose proof (map_delete_length key (cache c) Hnd Hhas). lia.
Qed.

Lemma LRU_calls_bounded (calls : list lru_call) (c : LRU) :
  lru_bounded c -> lru_bounded (LRU_calls c calls).
Proof.
  unfold LRU_calls. revert c.
  induction calls as [|o calls IH]; intros c Hc; simpl; [exact Hc|].
  apply IH. destruct o; [apply LRU_set_bounded|apply LRU_get_bounded]; exact Hc.
Qed.

Lemma LRU_calls_maxSize (calls : list lru_call) (c : LRU) :
  maxSize (LRU_calls c calls) = maxSize c.
Proof.
  unfold LRU_calls. revert c.
  induction calls as [|o calls IH]; intros c; simpl; [reflexivity|].
  rewrite IH. destruct o; [apply LRU_set_maxSize|apply LRU_get_maxSize].
Qed.

(** X1.  A store constructed with a whole number as capacity, and empty
    at first, never holds more entries than that number, whatever [set]
    and [get] calls follow; with capacity 0 it holds at most one. *)
Theorem lru_never_exceeds_capacity (C : N) (calls : list lru_call) :
  N.of_nat (length (cache (LRU_calls (LRU_new C) calls))) <= N.max C 1.
Proof.
  assert (Hb : lru_bounded (LRU_calls (LRU_new C) calls)).
  { apply LRU_calls_bounded. split; simpl; [apply NoDup_nil_2|lia]. }
  destruct Hb as [_ Hlen]. rewrite LRU_calls_maxSize in Hlen. exact Hlen.
Qed.

(** X2.  A key that has just been read survives the next [set], when the
    capacity is at least two: [get] moves it away from the eviction end. *)
Theorem lru_get_protects_from_next_eviction (c : LRU) (k k' : string) (v : value) :
  2 <= maxSize c ->
  LRU_has c k = true ->
  LRU_has (LRU_set (fst (LRU_get c k)) k' v) k = true.
Proof.
  intros Hcap Hhas. unfold LRU_has in *.
  destruct (String.eqb_spec k' k) as [->|Hne]; [apply LRU_has_set|].
  unfold LRU_get. rewrite Hhas. simpl.
  set (val := default VNull (map_get k (cache c))).
  set (rest := map_delete k (cache c)).
  apply map_has_true. unfold LRU_set. simpl.
  unfold map_append at 1. rewrite map_app, in_app_iff. left.
  assert (Hin : In k (map fst (map_append k val rest))).
  { unfold map_append. rewrite map_app, in_app_iff. right. left. reflexivity. }
  destruct (map_has k' (map_append k val rest)).
  { apply map_delete_keys. split; [congruence|exact Hin]. }
  destruct (N.leb_spec (maxSize c) (N.of_nat (length (map_append k val rest))))
    as [Hfull|_]; [|exact Hin].
  destruct rest as [|[k0 v0] rest'] eqn:Hrest.
  - simpl in Hfull. lia.
  - assert (Hk0 : k0 <> k).
    { assert (Hin0 : In k0 (map fst (map_delete k (cache c)))).
      { fold rest. rewrite Hrest. left. reflexivity. }
      apply map_delete_keys in Hin0. tauto. }
    change (map_append k val ((k0, v0) :: rest'))
      with ((k0, v0) :: map_append k val rest') in *.
    apply map_delete_keys. split; [congruence|exact Hin].
Qed.

Lemma lru_get_keeps_contents_aux (c : LRU) (k : string) :
  LRU_has c k = true ->
  LRU_has (fst (LRU_get c k)) k = true /\
  snd (LRU_get (fst (LRU_get c k)) k) = snd (LRU_get c k).
Proof.
  unfold LRU_has, LRU_get. intros Hhas. rewrite Hhas. simpl.
  rewrite map_has_append. simpl. split; [reflexivity|].
  rewrite map_get_append; [reflexivity|]. rewrite map_delete_keys. tauto.
Qed.

(** X3.  [get] returns what the key maps to ([null] when absent) and
    leaves every key mapped to what it was: only the order changes. *)
Theorem lru_get_keeps_contents (c : LRU) (k k' : string) :
  snd (LRU_get c k) = default VNull (map_get k (cache c)) /\
  map_get k' (cache (fst (LRU_get c k))) = map_get k' (cache c).
Proof.
  unfold LRU_get. destruct (map_has k (cache c)) eqn:Hhas; simpl.
  - split; [reflexivity|].
    destruct (String.eqb_spec k' k) as [->|Hne].
    + destruct (map_get_some k (cache c) Hhas) as (v & Hv). rewrite Hv. simpl.
      apply map_get_append. rewrite map_delete_keys. tauto.
    + rewrite map_get_append_ne, map_get_delete_ne by exact Hne. reflexivity.
  - rewrite (map_get_none k (cache c) Hhas). split; reflexivity.
Qed.

(** X4.  [set] on a key that is present, or while there is room, evicts
    nothing: every other key maps to what it did, and the key maps to the
    new value. *)
Theorem lru_set_without_eviction (c : LRU) (k k' : string) (v : value) :
  LRU_has c k = true \/ N.of_nat (length (cache c)) < maxSize c ->
  k' <> k ->
  map_get k' (cache (LRU_set c k v)) = map_get k' (cache c) /\
  map_get k (cache (LRU_set c k v)) = Some v.
Proof.
  intros Hcase Hne. split.
  - unfold LRU_set, LRU_has in *. simpl. rewrite map_get_append_ne by exact Hne.
    destruct (map_has k (cache c)); [apply map_get_delete_ne, Hne|].
    destruct Hcase as [Hc|Hroom]; [discriminate|].
    destruct (N.leb_spec (maxSize c) (N.of_nat (length (cache c)))); [lia|reflexivity].
  - destruct (LRU_set_shape c k v) as (m & -> & Hm). apply map_get_append, Hm.
Qed.

(** X5.  When [set] does evict, it evicts the oldest entry only: a key
    other than the one set and the one at the front keeps its value. *)
Theorem lru_set_evicts_only_the_oldest (c : LRU) (k k' firstKey : string)
    (v v0 : value) (rest : list (string * value)) :
  cache c = (firstKey, v0) :: rest ->
  k' <> k ->
  k' <> firstKey ->
  map_get k' (cache (LRU_set c k v)) = map_get k' (cache c).
Proof.
  intros Hc Hne Hfirst. unfold LRU_set. simpl.
  rewrite map_get_append_ne by exact Hne.
  destruct (map_has k (cache c)); [apply map_get_delete_ne, Hne|].
  destruct (maxSize c <=? N.of_nat (length (cache c))); [|reflexivity].
  rewrite Hc. apply map_get_delete_ne, Hfirst.
Qed.

(** *** BloomFilter: a fresh filter, order of adds, what adds keep *)

Lemma fresh_test_bit (size : N) (numHashes : nat) (k : string) (i : nat) :
  test_bit (BloomFilter_new size numHashes) k i = false.
Proof.
  unfold test_bit. destruct (_hash _ k i) as [index|]; [|reflexivity].
  simpl. destruct (replicate _ 0 !! _) as [byte|] eqn:Hb; [|reflexivity].
  apply lookup_replicate in Hb as [-> _]. reflexivity.
Qed.

Lemma fresh_mightContain (bitCount : N) (hashes : nat) (k : string) :
  (1 <= hashes)%nat ->
  BloomFilter_mightContain (BloomFilter_new bitCount hashes) k = false.
Proof.
  intros Hn. unfold BloomFilter_mightContain.
  change (numHashes (BloomFilter_new bitCount hashes)) with hashes.
  destruct hashes as [|n]; [lia|].
  cbn [seq forallb]. rewrite fresh_test_bit. reflexivity.
Qed.

(** X6.  A filter that has just been constructed with at least one hash
    function reports no key, whatever its size; with no hash function it
    reports every key. *)
Theorem fresh_filter_reports_nothing (bitCount : N) (hashes : nat) (k : string) :
  BloomFilter_mightContain (BloomFilter_new bitCount hashes) k
  = match hashes with O => true | S _ => false end.
Proof.
  destruct hashes as [|n]; [reflexivity|]. apply fresh_mightContain. lia.
Qed.

Lemma add_keeps_mightContain (b : BloomFilter) (k x : string) :
  BloomFilter_mightContain b k = true ->
  BloomFilter_mightContain (BloomFilter_add b x) k = true.
Proof.
  unfold BloomFilter_mightContain. simpl numHashes.
  rewrite !forallb_forall. intros Hb i Hi. specialize (Hb i Hi).
  rewrite test_bit_bit_at in *.
  rewrite (hash_same_size b) by reflexivity.
  destruct (_hash b k i) as [index|]; [|discriminate].
  simpl. apply set_bits_keeps, Hb.
Qed.

(** X7.  Whatever passes the filter keeps passing it: no later [add]
    turns a [true] of [mightContain] into [false], for added keys and for
    false positives alike, on a filter of any size. *)
Theorem filter_answers_only_grow (b : BloomFilter) (k : string) (later : list string) :
  BloomFilter_mightContain b k = true ->
  BloomFilter_mightContain (fold_left BloomFilter_add later b) k = true.
Proof.
  revert b. induction later as [|x later IH]; intros b Hb; simpl; [exact Hb|].
  apply IH, add_keeps_mightContain, Hb.
Qed.

Lemma set_bits_comm (b : BloomFilter) (x y : string) (lx ly : list nat) (bs : list N) :
  fold_left (fun bits i => set_bit b bits y i) ly
            (fold_left (fun bits i => set_bit b bits x i) lx bs)
  = fold_left (fun bits i => set_bit b bits x i) lx
              (fold_left (fun bits i => set_bit b bits y i) ly bs).
Proof.
  revert bs. induction ly as [|j ly IH]; intros bs; simpl; [reflexivity|].
  rewrite set_bits_push, IH. reflexivity.
Qed.

(** X8.  The order of two [add]s does not matter: the filter ends in the
    same state. *)
Theorem bloom_adds_commute (b : BloomFilter) (x y : string) :
  BloomFilter_add (BloomFilter_add b x) y = BloomFilter_add (BloomFilter_add b y) x.
Proof.
  unfold BloomFilter_add. simpl. f_equal.
  rewrite (fold_left_pointwise _ (fun bits i => set_bit b bits y i))
    by (intros; apply set_bit_same_size; reflexivity).
  rewrite (fold_left_pointwise
             (fun bits i => set_bit {| size := size b; numHashes := numHashes b;
                                       bits := _; itemCount := _ |} bits x i)
             (fun bits i => set_bit b bits x i))
    by (intros; apply set_bit_same_size; reflexivity).
  apply set_bits_comm.
Qed.

(** X9.  [add] never resizes or re-parameterises the filter, and counts
    calls: after any [add]s the size, the hash count and the length of the
    array are unchanged and [itemCount] has grown by the number of
    calls. *)
Theorem adds_keep_shape_and_count_calls (items : list string) (b : BloomFilter) :
  size (fold_left BloomFilter_add items b) = size b /\
  numHashes (fold_left BloomFilter_add items b) = numHashes b /\
  length (bits (fold_left BloomFilter_add items b)) = length (bits b) /\
  itemCount (fold_left BloomFilter_add items b) = (itemCount b + length items)%nat.
Proof.
  revert b. induction items as [|x items IH]; intros b; simpl.
  - repeat split. lia.
  - destruct (IH (BloomFilter_add b x)) as (Hs & Hn & Hl & Hc).
    rewrite Hs, Hn, Hl, Hc. simpl. rewrite set_bits_length.
    repeat split. lia.
Qed.

(** *** FastLookup: first lookups, repeated lookups, the store *)

Lemma new_lookup_filter_wf (options : Options) :
  wf_filter (bloom (FastLookup_new options)).
Proof. apply new_wf, or_default_pos. reflexivity. Qed.

Lemma run_calls_filter_wf (options : Options) (calls : list call) :
  wf_filter (bloom (run_calls (FastLookup_new options) calls)).
Proof.
  destruct (run_calls_bloom calls (FastLookup_new options)) as (items & ->).
  apply adds_wf, new_lookup_filter_wf.
Qed.

Lemma added_in_list (b : BloomFilter) (items : list string) (k : string) :
  wf_filter b -> In k items ->
  BloomFilter_mightContain (fold_left BloomFilter_add items b) k = true.
Proof.
  intros Hwf Hin. apply in_split in Hin as (l1 & l2 & ->).
  rewrite fold_left_app. simpl. apply wf_no_false_negatives, adds_wf, Hwf.
Qed.

(** X10.  The first [get] on a lookup that has just been constructed (with
    at least one hash function) resolves to [null] for every key without
    calling [fetchFromIndex], and records the key as absent. *)
Theorem first_get_on_new_lookup_misses (options : Options) (k : string)
    (draw : float) (created : string) :
  fprHashes options <> Some 0%nat ->
  get (FastLookup_new options) k draw created
  = (mkFastLookup (hotCache (FastLookup_new options)) (bloom (FastLookup_new options))
                  ∅ {[k]} ∅ (mkStats 1 0 0 0 0 0 1),
     Resolved VNull, []).
Proof.
  intros Hh. unfold get, get_begin. cbn [FastLookup_new with_stats hotCache negative
    sieve bloom stats index LRU_has LRU_new cache map_has existsb].
  rewrite !bool_decide_eq_false_2 by apply not_elem_of_empty.
  rewrite fresh_mightContain.
  - cbn. rewrite (right_id_L ∅ (∪)). reflexivity.
  - destruct (fprHashes options) as [[|n]|]; simpl; [congruence|lia|lia].
Qed.

(** X11.  [preload] changes nothing but the filter, on any lookup; and
    when the filter has a positive size, a [get] of a key that [preload]
    has processed and that is in neither the hot cache nor a set goes to
    the store: it is suspended at the fetch of the filter branch. *)
Theorem preloaded_key_goes_to_the_store (s : FastLookup) (hashes : list string)
    (extra : nat) (k : string) :
  hotCache (preload s hashes extra) = hotCache s /\
  sieve (preload s hashes extra) = sieve s /\
  negative (preload s hashes extra) = negative s /\
  index (preload s hashes extra) = index s /\
  stats (preload s hashes extra) = stats s /\
  (wf_filter (bloom s) ->
   In k (take (S extra) hashes) ->
   LRU_has (hotCache s) k = false ->
   k ∉ negative s ->
   k ∉ sieve s ->
   get_begin (preload s hashes extra) k
   = Awaiting (with_stats (preload s hashes extra)
                          (inc_fetches (inc_bloomHits (inc_lookups (stats s)))))
              BloomFetch).
Proof.
  do 5 (split; [reflexivity|]). intros Hwf Hin Hhot Hneg Hsieve.
  unfold get_begin.
  cbn [preload with_stats hotCache negative sieve bloom stats index].
  rewrite Hhot. rewrite !bool_decide_eq_false_2 by assumption.
  rewrite added_in_list by assumption. reflexivity.
Qed.

(** After a settled [get] the answer sits in the hot cache, or it is
    [null] and the key is in the negative set and not in the hot cache. *)
Lemma get_leaves_answer_cached (s : FastLookup) (k : string) (draw : float)
    (created : string) :
  exists v, snd (fst (get s k draw created)) = Resolved v /\
    ((LRU_has (hotCache (fst (fst (get s k draw created)))) k = true /\
      snd (LRU_get (hotCache (fst (fst (get s k draw created)))) k) = v) \/
     (LRU_has (hotCache (fst (fst (get s k draw created)))) k = false /\
      (k ∈ negative (fst (fst (get s k draw created)))) /\ v = VNull)).
Proof.
  unfold get, get_begin. simpl.
  destruct (LRU_has (hotCache s) k) eqn:Hhas.
  - pose proof (lru_get_keeps_contents_aux (hotCache s) k Hhas) as (Hhas' & Hv).
    destruct (LRU_get (hotCache s) k) as [hot v]. simpl in *.
    exists v. split; [reflexivity|]. left. split; assumption.
  - case_bool_decide as Hn; simpl.
    { exists VNull. split; [reflexivity|]. right. repeat split; assumption. }
    case_bool_decide as Hs; simpl.
    { eexists. split; [reflexivity|]. left. split; [apply LRU_has_set|apply LRU_get_set]. }
    destruct (BloomFilter_mightContain (bloom s) k); simpl.
    + destruct (fetchFromIndex _ k draw created) as [|fields]; simpl.
      * exists VNull. split; [reflexivity|]. right. repeat split; [exact Hhas|].
        apply elem_of_union_l, elem_of_singleton. reflexivity.
      * eexists. split; [reflexivity|]. left.
        split; [apply LRU_has_set|apply LRU_get_set].
    + exists VNull. split; [reflexivity|]. right. repeat split; [exact Hhas|].
      apply elem_of_union_l, elem_of_singleton. reflexivity.
Qed.

(** X12.  A [get] that follows a settled [get] of the same key resolves to
    the same value and does not call [fetchFromIndex], whatever the first
    one did. *)
Theorem repeated_get_is_served_without_fetch (s : FastLookup) (k : string)
    (draw draw' : float) (created created' : string) :
  snd (fst (get (fst (fst (get s k draw created))) k draw' created'))
  = snd (fst (get s k draw created)) /\
  snd (get (fst (fst (get s k draw created))) k draw' created') = [].
Proof.
  destruct (get_leaves_answer_cached s k draw created)
    as (v & -> & [(Hhas & Hv)|(Hhas & Hin & ->)]);
    set (s1 := fst (fst (get s k draw created))) in *;
    unfold get, get_begin; simpl; rewrite Hhas.
  - destruct (LRU_get (hotCache s1) k) as [hot v']. simpl in *. subst v'.
    split; reflexivity.
  - rewrite bool_decide_eq_true_2 by exact Hin. split; reflexivity.
Qed.

(** X13.  [clear()] does not lose records: on any lookup whose filter has
    a positive size, after [add(k, r)] and [clear()] a [get(k)] resolves to
    [r] with exactly one call of [fetchFromIndex], whatever the draw. *)
Theorem added_record_survives_clear (s : FastLookup) (k : string) (r : value)
    (draw : float) (created : string) :
  wf_filter (bloom s) ->
  snd (fst (get (clear (add s k r)) k draw created)) = Resolved r /\
  snd (get (clear (add s k r)) k draw created) = [k].
Proof.
  intros Hwf.
  assert (Hb : BloomFilter_mightContain (BloomFilter_add (bloom s) k) k = true).
  { apply (wf_no_false_negatives (bloom s) k []), Hwf. }
  unfold get, get_begin.
  cbn [clear add with_stats hotCache negative sieve bloom stats index LRU_has
       LRU_new cache map_has existsb].
  rewrite !bool_decide_eq_false_2 by apply not_elem_of_empty.
  rewrite Hb. cbn [negb]. unfold fetchFromIndex. cbn [index with_stats clear add].
  rewrite lookup_insert_eq. unfold get_resume.
  destruct r as [|fields]; split; reflexivity.
Qed.

Lemma LRU_has_set_inv (c : LRU) (k k' : string) (v : value) :
  LRU_has (LRU_set c k v) k' = true -> k' = k \/ LRU_has c k' = true.
Proof.
  unfold LRU_has. rewrite !map_has_true. unfold LRU_set. simpl.
  unfold map_append. rewrite map_app, in_app_iff. simpl.
  intros [Hin|[<-|[]]]; [|left; reflexivity]. right.
  destruct (map_has k (cache c)); [apply map_delete_keys in Hin; tauto|].
  destruct (maxSize c <=? _); [|exact Hin].
  destruct (cache c) as [|[firstKey v0] m] eqn:Hc; [exact Hin|].
  apply map_delete_keys in Hin. tauto.
Qed.

Lemma LRU_has_get_inv (c : LRU) (k k' : string) :
  LRU_has (fst (LRU_get c k)) k' = true -> LRU_has c k' = true.
Proof.
  unfold LRU_has, LRU_get. destruct (map_has k (cache c)) eqn:Hhas; simpl; [|tauto].
  rewrite !map_has_true. unfold map_append. rewrite map_app, in_app_iff. simpl.
  intros [Hin|[<-|[]]].
  - apply map_delete_keys in Hin. tauto.
  - apply map_has_true, Hhas.
Qed.

Lemma run_call_hot_in_sieve (s : FastLookup) (c : call) :
  hot_in_sieve s -> hot_in_sieve (run_call s c).
Proof.
  intros Hs. destruct c as [k draw created|k data|hashes extra|]; simpl.
  - unfold get, get_begin. simpl.
    destruct (LRU_has (hotCache s) k) eqn:Hhas.
    { pose proof (LRU_has_get_inv (hotCache s) k) as Hinv.
      destruct (LRU_get (hotCache s) k) as [hot v]. simpl in *.
      intros k' Hk'. simpl in *. apply Hs, Hinv, Hk'. }
    case_bool_decide as Hn; simpl; [exact Hs|].
    case_bool_decide as Hsv; simpl.
    { intros k' Hk'. simpl in *. apply LRU_has_set_inv in Hk' as [->|Hk'];
        [exact Hsv|apply Hs, Hk']. }
    destruct (BloomFilter_mightContain (bloom s) k); simpl; [|exact Hs].
    destruct (truthy _); simpl; [|exact Hs].
    intros k' Hk'. simpl in *. apply LRU_has_set_inv in Hk' as [->|Hk'].
    + apply elem_of_union_l, elem_of_singleton. reflexivity.
    + apply elem_of_union_r, Hs, Hk'.
  - intros k' Hk'. simpl in *. apply LRU_has_set_inv in Hk' as [->|Hk'].
    + apply elem_of_union_l, elem_of_singleton. reflexivity.
    + apply elem_of_union_r, Hs, Hk'.
  - exact Hs.
  - intros k' Hk'. discriminate Hk'.
Qed.

Lemma run_calls_hot_in_sieve (calls : list call) (s : FastLookup) :
  hot_in_sieve s -> hot_in_sieve (run_calls s calls).
Proof.
  unfold run_calls. revert s.
  induction calls as [|c calls IH]; intros s Hs; simpl; [exact Hs|].
  apply IH, run_call_hot_in_sieve, Hs.
Qed.

(** X14.  On a lookup reached by settled calls, every key held by the hot
    cache is in the sieve and not in the negative set. *)
Theorem hot_keys_are_confirmed_present (options : Options) (calls : list call)
    (k : string) :
  LRU_has (hotCache (run_calls (FastLookup_new options) calls)) k = true ->
  (k ∈ sieve (run_calls (FastLookup_new options) calls)) /\
  (k ∉ negative (run_calls (FastLookup_new options) calls)).
Proof.
  intros Hhas.
  assert (Hin : k ∈ sieve (run_calls (FastLookup_new options) calls)).
  { apply (run_calls_hot_in_sieve calls (FastLookup_new options)); [|exact Hhas].
    intros k' Hk'. discriminate Hk'. }
  split; [exact Hin|]. intros Hneg.
  pose proof (run_calls_disjoint (FastLookup_new options) calls
                (intersection_empty_l_L _)) as Hd.
  apply (proj1 (elem_of_equiv_empty_L _) Hd k).
  apply elem_of_intersection. split; assumption.
Qed.

(** X15.  Each settled [get] counts one lookup, and [stats.fetches] counts
    the fetches of the filter branch only: the calls of [fetchFromIndex]
    are the growth of [fetches] plus that of [sieveHits], and [fetches]
    grows exactly when [bloomHits] does. *)
Theorem get_counters_account_for_fetches (s : FastLookup) (k : string)
    (draw : float) (created : string) :
  lookups (stats (fst (fst (get s k draw created)))) = S (lookups (stats s)) /\
  (fetches (stats (fst (fst (get s k draw created))))
   + sieveHits (stats (fst (fst (get s k draw created)))))%nat
  = (fetches (stats s) + sieveHits (stats s)
     + length (snd (get s k draw created)))%nat /\
  (fetches (stats (fst (fst (get s k draw created)))) + bloomHits (stats s))%nat
  = (fetches (stats s) + bloomHits (stats (fst (fst (get s k draw created)))))%nat.
Proof.
  unfold get, get_begin. simpl.
  destruct (LRU_has (hotCache s) k).
  { destruct (LRU_get (hotCache s) k). simpl. lia. }
  case_bool_decide; simpl; [lia|].
  case_bool_decide; simpl; [lia|].
  destruct (BloomFilter_mightContain (bloom s) k); simpl; [|lia].
  destruct (truthy _); simpl; lia.
Qed.

(** X16.  On the sieve branch the fetched value is cached unchecked: when
    the fetch gives [null] for a key of the sieve, [get] resolves to
    [null], the key stays in the sieve and out of the negative set, and
    the hot cache now answers [null] for it. *)
Theorem sieve_branch_caches_a_null_fetch (s : FastLookup) (k : string)
    (draw : float) (created : string) :
  LRU_has (hotCache s) k = false ->
  k ∉ negative s ->
  k ∈ sieve s ->
  index s !! k = None ->
  PrimFloat.ltb draw one_tenth = true ->
  get s k draw created
  = (mkFastLookup (LRU_set (hotCache s) k VNull) (bloom s) (sieve s) (negative s)
                  (index s) (inc_sieveHits (inc_lookups (stats s))),
     Resolved VNull, [k]) /\
  LRU_get (LRU_set (hotCache s) k VNull) k
  = (fst (LRU_get (LRU_set (hotCache s) k VNull) k), VNull) /\
  LRU_has (LRU_set (hotCache s) k VNull) k = true.
Proof.
  intros Hhot Hneg Hsieve Hindex Hdraw. split; [|split].
  - unfold get, get_begin. simpl. rewrite Hhot.
    rewrite bool_decide_eq_false_2 by exact Hneg.
    rewrite bool_decide_eq_true_2 by exact Hsieve.
    unfold fetchFromIndex. simpl. rewrite Hindex, Hdraw. reflexivity.
  - pose proof (LRU_get_set (hotCache s) k VNull) as Hv.
    destruct (LRU_get (LRU_set (hotCache s) k VNull) k). simpl in *. subst. reflexivity.
  - apply LRU_has_set.
Qed.

(** X17.  A settled [get] never writes to the index and never removes a
    key from the sieve or from the negative set. *)
Theorem get_only_adds_to_the_sets (s : FastLookup) (k : string)
    (draw : float) (created : string) :
  index (fst (fst (get s k draw created))) = index s /\
  sieve s ⊆ sieve (fst (fst (get s k draw created))) /\
  negative s ⊆ negative (fst (fst (get s k draw created))).
Proof.
  split.
  - unfold get, get_begin. simpl.
    destruct (LRU_has (hotCache s) k).
    { destruct (LRU_get (hotCache s) k). reflexivity. }
    case_bool_decide; simpl; [reflexivity|].
    case_bool_decide; simpl; [reflexivity|].
    destruct (BloomFilter_mightContain (bloom s) k); simpl; [|reflexivity].
    destruct (truthy _); reflexivity.
  - destruct (get_sets s k draw created) as [(-> & ->)|[(-> & -> & _)|(-> & -> & _)]];
      split; try reflexivity; apply union_subseteq_r.
Qed.

Lemma LRU_set_other_absent (c : LRU) (k k' : string) (v : value) :
  k' <> k -> LRU_has c k = false -> LRU_has (LRU_set c k' v) k = false.
Proof.
  intros Hne Hhas. destruct (LRU_has (LRU_set c k' v) k) eqn:E; [|reflexivity].
  apply LRU_has_set_inv in E as [->|E]; congruence.
Qed.

Lemma LRU_get_absent (c : LRU) (k k' : string) :
  LRU_has c k = false -> LRU_has (fst (LRU_get c k')) k = false.
Proof.
  intros Hhas. destruct (LRU_has (fst (LRU_get c k')) k) eqn:E; [|reflexivity].
  apply LRU_has_get_inv in E. congruence.
Qed.

Lemma read_keeps_negative_entry (s : FastLookup) (k : string) (c : call) :
  reads_only c = true ->
  LRU_has (hotCache s) k = false /\ k ∈ negative s ->
  LRU_has (hotCache (run_call s c)) k = false /\ k ∈ negative (run_call s c).
Proof.
  intros Hc [Hhot Hneg].
  destruct c as [k' draw created|k' data|hashes extra|]; try discriminate; simpl;
    [|split; assumption].
  unfold get, get_begin. simpl.
  destruct (LRU_has (hotCache s) k') eqn:Hhas'.
  { pose proof (LRU_get_absent (hotCache s) k k' Hhot) as Habs.
    destruct (LRU_get (hotCache s) k'). simpl in *. split; assumption. }
  case_bool_decide as Hn; simpl; [split; assumption|].
  assert (Hne : k' <> k) by congruence.
  case_bool_decide as Hs; simpl.
  { split; [apply LRU_set_other_absent; assumption|exact Hneg]. }
  destruct (BloomFilter_mightContain (bloom s) k'); simpl.
  - destruct (truthy _); simpl.
    + split; [apply LRU_set_other_absent; assumption|exact Hneg].
    + split; [exact Hhot|apply elem_of_union_r, Hneg].
  - split; [exact Hhot|apply elem_of_union_r, Hneg].
Qed.

(** X20.  A negative answer is sticky: once a key is in the negative set
    and not in the hot cache, no [get] or [preload], of this key or of
    others, changes that, and [get] of the key keeps resolving to [null]
    without calling [fetchFromIndex]; only [add] or [clear] end it. *)
Theorem negative_answer_is_sticky (calls : list call) (s : FastLookup)
    (k : string) (draw : float) (created : string) :
  LRU_has (hotCache s) k = false ->
  k ∈ negative s ->
  forallb reads_only calls = true ->
  snd (fst (get (run_calls s calls) k draw created)) = Resolved VNull /\
  snd (get (run_calls s calls) k draw created) = [].
Proof.
  intros Hhot Hneg Hcalls.
  assert (Hinv : LRU_has (hotCache (run_calls s calls)) k = false /\
                 k ∈ negative (run_calls s calls)).
  { unfold run_calls. revert s Hhot Hneg.
    induction calls as [|c calls IH]; intros s Hhot Hneg; simpl; [split; assumption|].
    simpl in Hcalls. apply andb_true_iff in Hcalls as [Hc Hcalls].
    destruct (read_keeps_negative_entry s k c Hc (conj Hhot Hneg)) as [Hhot' Hneg'].
    apply IH; assumption. }
  destruct Hinv as [Hhot' Hneg'].
  unfold get, get_begin. simpl. rewrite Hhot'.
  rewrite bool_decide_eq_true_2 by exact Hneg'. split; reflexivity.
Qed.

(** *** FastLookup: calls that overlap *)
















Lemma unknown_key_get_begin (s : FastLookup) (k : string) :
  LRU_has (hotCache s) k = false ->
  k ∉ negative s ->
  k ∉ sieve s ->
  BloomFilter_mightContain (bloom s) k = true ->
  get_begin s k
  = Awaiting (with_stats s (inc_fetches (inc_bloomHits (inc_lookups (stats s)))))
             BloomFetch.
Proof.
  intros Hhot Hneg Hsieve Hbloom. unfold get_begin. simpl.
  rewrite Hhot, Hbloom.
  rewrite !bool_decide_eq_false_2 by assumption. reflexivity.
Qed.

(** X18.  Overlapping [get]s of one key are not coalesced: [n] calls made
    while the key is unknown and passes the filter leave [n] suspended
    fetches and raise [stats.fetches] by [n]. *)
Theorem overlapping_gets_each_fetch (n : nat) (s : FastLookup)
    (waiting : list (string * fetch_site)) (k : string) :
  LRU_has (hotCache s) k = false ->
  k ∉ negative s ->
  k ∉ sieve s ->
  BloomFilter_mightContain (bloom s) k = true ->
  suspended (run_events (mkLoop s waiting) (repeat (Get k) n))
  = (waiting ++ repeat (k, BloomFetch) n)%list /\
  fetches (stats (registry (run_events (mkLoop s waiting) (repeat (Get k) n))))
  = (fetches (stats s) + n)%nat.
Proof.
  revert s waiting. induction n as [|n IH]; intros s waiting Hhot Hneg Hsieve Hbloom.
  - simpl. rewrite app_nil_r. split; [reflexivity|lia].
  - change (run_events (mkLoop s waiting) (repeat (Get k) (S n)))
      with (run_events (handle (mkLoop s waiting) (Get k)) (repeat (Get k) n)).
    unfold handle. cbn [registry suspended].
    rewrite (unknown_key_get_begin s k) by assumption.
    destruct (IH (with_stats s (inc_fetches (inc_bloomHits (inc_lookups (stats s)))))
                 (waiting ++ [(k, BloomFetch)])%list Hhot Hneg Hsieve Hbloom)
      as (Hsusp & Hfetch).
    rewrite Hsusp, Hfetch. split.
    + rewrite <- app_assoc. reflexivity.
    + simpl. lia.
Qed.

Lemma get_add_timer (s : FastLookup) (k : string) (r : value)
    (draw : float) (created : string) :
  run_events (mkLoop s []) [Get k; Add k r; Timer 0 draw created]
  = match get_begin s k with
    | Returned s1 _ => mkLoop (add s1 k r) []
    | Awaiting s1 site =>
        mkLoop (fst (get_resume (add s1 k r) site k
                       (Fulfilled (fetchFromIndex (add s1 k r) k draw created))))
               []
    end.
Proof.
  unfold run_events. cbn [fold_left handle registry suspended].
  destruct (get_begin s k) as [s1 v|s1 site]; reflexivity.
Qed.

Lemma fetch_after_add (s : FastLookup) (k : string) (r : value)
    (draw : float) (created : string) :
  fetchFromIndex (add s k r) k draw created = r.
Proof. unfold fetchFromIndex. cbn [index add]. rewrite lookup_insert_eq. reflexivity. Qed.

Lemma in_insert (k : string) (X : gset string) : k ∈ {[k]} ∪ X.
Proof. apply elem_of_union_l, elem_of_singleton. reflexivity. Qed.

Lemma not_in_remove (k : string) (X : gset string) : k ∉ X ∖ {[k]}.
Proof. rewrite elem_of_difference, elem_of_singleton. tauto. Qed.

(** X19.  An [add] of a record that lands while a [get] of the same key is
    suspended wins: when the fetch settles the key is in the sieve, not in
    the negative set, and the hot cache and the index hold the added
    record, whatever the draw. *)
Theorem add_during_suspended_get_wins (s : FastLookup) (k : string) (r : value)
    (draw : float) (created : string) :
  truthy r = true ->
  suspended (run_events (mkLoop s []) [Get k; Add k r; Timer 0 draw created]) = [] /\
  (k ∈ sieve (registry (run_events (mkLoop s [])
                          [Get k; Add k r; Timer 0 draw created]))) /\
  (k ∉ negative (registry (run_events (mkLoop s [])
                             [Get k; Add k r; Timer 0 draw created]))) /\
  snd (LRU_get (hotCache (registry (run_events (mkLoop s [])
                                      [Get k; Add k r; Timer 0 draw created]))) k) = r /\
  index (registry (run_events (mkLoop s [])
                     [Get k; Add k r; Timer 0 draw created])) !! k = Some r.
Proof.
  intros Hr. rewrite get_add_timer.
  destruct (get_begin s k) as [s1 v|s1 site]; cbn [registry suspended].
  - cbn [add hotCache sieve negative index].
    split; [reflexivity|]. split; [apply in_insert|]. split; [apply not_in_remove|].
    split; [apply LRU_get_set|apply lookup_insert_eq].
  - rewrite fetch_after_add.
    destruct site; cbn [get_resume fst]; [|rewrite Hr; cbn [fst]];
      cbn [add hotCache sieve negative index].
    + split; [reflexivity|]. split; [apply in_insert|]. split; [apply not_in_remove|].
      split; [apply LRU_get_set|apply lookup_insert_eq].
    + split; [reflexivity|]. split; [apply in_insert|]. split; [apply not_in_remove|].
      split; [apply LRU_get_set|apply lookup_insert_eq].
Qed.

End Properties.

(** ** The definitions evaluated *)

#[local] Existing Instance length_digest.



(** The schedule of the two overlapping [get]s clashes at the second
    [get]. *)
Lemma overlapping_gets_clash :
  clash (run_events (mkLoop small_lookup []) [Preload ["z"] 0; Get "z"]) (Get "z")
  = true.
Proof. reflexivity. Qed.

(** The other clash: [null] is added for "z" while its fetch is in flight;
    the fetch then finds [null] in the index and "z" ends in both sets. *)
Lemma falsy_add_during_fetch_breaks_exclusion :
  clash (run_events (mkLoop small_lookup []) [Preload ["z"] 0; Get "z"])
        (Add "z" VNull) = true /\
  ("z" ∈ sieve (registry (run_events (mkLoop small_lookup [])
                  [Preload ["z"] 0; Get "z"; Add "z" VNull;
                   Timer 0 0.5%float sample_time]))) /\
  ("z" ∈ negative (registry (run_events (mkLoop small_lookup [])
                  [Preload ["z"] 0; Get "z"; Add "z" VNull;
                   Timer 0 0.5%float sample_time]))).
Proof.
  split; [reflexivity|].
  split; apply (bool_decide_unpack _); vm_compute; exact I.
Qed.



Lemma settled_calls_keep_sets_disjoint_witness :
  sieve small_lookup ∩ negative small_lookup = ∅ /\
  sieve (run_calls small_lookup
           [CallPreload ["z"] 0; CallGet "z" 0.5%float sample_time;
            CallAdd "k1" sample_record; CallGet "unknown-key" 0.5%float sample_time;
            CallClear; CallGet "z" 0.0625%float sample_time])
  ∩ negative (run_calls small_lookup
           [CallPreload ["z"] 0; CallGet "z" 0.5%float sample_time;
            CallAdd "k1" sample_record; CallGet "unknown-key" 0.5%float sample_time;
            CallClear; CallGet "z" 0.0625%float sample_time]) = ∅.
Proof.
  split; [reflexivity|].
  apply (settled_calls_keep_sets_disjoint small_lookup). reflexivity.
Defined.

(** C2, as stated, fails on a filter of size 0: every index is [NaN], so
    [add] sets no bit and [mightContain] finds none. *)
Lemma zero_size_filter_forgets :
  BloomFilter_mightContain (BloomFilter_add (BloomFilter_new 0 10) "k1") "k1" = false.
Proof. reflexivity. Qed.

Lemma bloom_no_false_negatives_witness :
  1 <= 64 /\
  BloomFilter_mightContain
    (fold_left BloomFilter_add ["b"; "c"]
       (BloomFilter_add (fold_left BloomFilter_add ["a"] (BloomFilter_new 64 3)) "k1"))
    "k1" = true.
Proof.
  split; [discriminate|].
  apply (bloom_no_false_negatives 64 3 ["a"] "k1" ["b"; "c"]). discriminate.
Defined.

Lemma negative_hit_skips_store_witness :
  LRU_has (hotCache lookup_after_miss) "unknown-key" = false /\
  ("unknown-key" ∈ negative lookup_after_miss) /\
  get lookup_after_miss "unknown-key" 0.5%float sample_time
  = (with_stats lookup_after_miss
       (inc_negativeHits (inc_lookups (stats lookup_after_miss))),
     Resolved VNull, []).
Proof.
  assert (Hhot : LRU_has (hotCache lookup_after_miss) "unknown-key" = false)
    by reflexivity.
  assert (Hneg : "unknown-key" ∈ negative lookup_after_miss)
    by (apply (bool_decide_unpack _); vm_compute; exact I).
  split; [exact Hhot|]. split; [exact Hneg|].
  exact (proj2 (negative_hit_skips_store lookup_after_miss "unknown-key"
                  0.5%float sample_time Hhot Hneg)).
Defined.

(** C5, as stated, fails for capacity 0: the one key inserted is kept. *)
Lemma zero_capacity_keeps_first_key :
  LRU_has (LRU_set_all (LRU_new 0) [("k1", sample_record)]) "k1" = true.
Proof. reflexivity. Qed.

Lemma lru_evicts_first_inserted_witness :
  1 <= 2 /\
  NoDup ("a" :: map fst [("b", VNull); ("c", sample_record)]) /\
  length [("b", VNull); ("c", sample_record)] = N.to_nat 2 /\
  LRU_has (LRU_set_all (LRU_new 2) [("a", VNull); ("b", VNull); ("c", sample_record)]) "a"
  = false /\
  LRU_has (LRU_set_all (LRU_new 2) [("a", VNull); ("b", VNull); ("c", sample_record)]) "c"
  = true.
Proof.
  assert (HC : 1 <= 2) by discriminate.
  assert (Hnd : NoDup ("a" :: map fst [("b", VNull); ("c", sample_record)]))
    by (apply (bool_decide_unpack _); vm_compute; exact I).
  assert (Hlen : length [("b", VNull); ("c", sample_record)] = N.to_nat 2)
    by reflexivity.
  repeat (split; [assumption|]).
  destruct (lru_evicts_first_inserted 2 "a" VNull [("b", VNull); ("c", sample_record)]
              HC Hnd Hlen) as [Hfirst Hothers].
  split; [exact Hfirst|]. apply Hothers. simpl. right. left. reflexivity.
Defined.

Lemma failed_fetch_rejects_get_witness :
  get_begin preloaded_lookup "z" = Awaiting preloaded_awaiting BloomFetch /\
  get_resume preloaded_awaiting BloomFetch "z" (Failed "ETIMEDOUT")
  = (preloaded_awaiting, Rejected "ETIMEDOUT") /\
  negative preloaded_awaiting = negative preloaded_lookup.
Proof.
  assert (Hb : get_begin preloaded_lookup "z" = Awaiting preloaded_awaiting BloomFetch)
    by reflexivity.
  split; [exact Hb|].
  destruct (failed_fetch_rejects_get preloaded_lookup "z" preloaded_awaiting
              BloomFetch "ETIMEDOUT" Hb) as (Hr & _ & Hn & _).
  split; [exact Hr|exact Hn].
Defined.

(** C7, as stated, fails: the second [add] of a key raises [itemCount], so
    the filter is in another state and [estimateFPR] is computed from
    other numbers. *)
Lemma bloom_add_again_changes_state :
  BloomFilter_add (BloomFilter_add (BloomFilter_new 64 3) "k1") "k1"
  <> BloomFilter_add (BloomFilter_new 64 3) "k1" /\
  estimateFPR_inputs (BloomFilter_add (BloomFilter_add (BloomFilter_new 64 3) "k1") "k1")
  = (3%nat, 64, 2%nat) /\
  estimateFPR_inputs (BloomFilter_add (BloomFilter_new 64 3) "k1")
  = (3%nat, 64, 1%nat).
Proof.
  split; [|split; reflexivity].
  intros Heq. apply (f_equal itemCount) in Heq. discriminate Heq.
Qed.

(** C8.  A lookup constructed with [cacheSize: 5] has a hot cache of
    capacity 5 until [clear()] is called, and one of capacity 10000
    after. *)
Theorem clear_forgets_configured_capacity :
  maxSize (hotCache (FastLookup_new (mkOptions (Some 5) None None))) = 5 /\
  maxSize (hotCache (run_calls (FastLookup_new (mkOptions (Some 5) None None))
                       [CallAdd "k1" sample_record;
                        CallGet "k1" 0.5%float sample_time])) = 5 /\
  maxSize (hotCache (clear (FastLookup_new (mkOptions (Some 5) None None)))) = 10000.
Proof. repeat split; vm_compute; reflexivity. Qed.

Lemma cold_miss_follows_the_draw_witness :
  LRU_has (hotCache preloaded_lookup) "z" = false /\
  BloomFilter_mightContain (bloom preloaded_lookup) "z" = true /\
  index preloaded_lookup !! "z" = None /\
  PrimFloat.ltb 0.0625%float one_tenth = true /\
  PrimFloat.ltb 0.5%float one_tenth = false /\
  snd (fst (get preloaded_lookup "z" 0.0625%float sample_time)) = Resolved VNull /\
  snd (fst (get preloaded_lookup "z" 0.5%float sample_time))
  = Resolved (mock_record "z" sample_time) /\
  ("z" ∈ negative (fst (fst (get preloaded_lookup "z" 0.0625%float sample_time)))) /\
  ("z" ∈ sieve (fst (fst (get preloaded_lookup "z" 0.5%float sample_time)))).
Proof.
  assert (Hhot : LRU_has (hotCache preloaded_lookup) "z" = false) by reflexivity.
  assert (Hneg : "z" ∉ negative preloaded_lookup)
    by (apply (bool_decide_eq_false_1 _); vm_compute; reflexivity).
  assert (Hsieve : "z" ∉ sieve preloaded_lookup)
    by (apply (bool_decide_eq_false_1 _); vm_compute; reflexivity).
  assert (Hbloom : BloomFilter_mightContain (bloom preloaded_lookup) "z" = true)
    by reflexivity.
  assert (Hindex : index preloaded_lookup !! "z" = None) by reflexivity.
  assert (Hlow : PrimFloat.ltb 0.0625%float one_tenth = true) by reflexivity.
  assert (Hhigh : PrimFloat.ltb 0.5%float one_tenth = false) by reflexivity.
  repeat (split; [assumption|]).
  destruct (cold_miss_follows_the_draw preloaded_lookup "z" sample_time
              0.0625%float 0.5%float Hhot Hneg Hsieve Hbloom Hindex Hlow Hhigh)
    as ((Hnull & Hinneg & _) & (Hrec & Hinsieve & _)).
  repeat split; assumption.
Defined.

(** *** The scenarios of the specification, on the small lookup *)

(** Fresh miss: the filter says absent, no fetch. *)
Example fresh_miss :
  snd (fst (get small_lookup "unknown-key" 0.5%float sample_time)) = Resolved VNull /\
  snd (get small_lookup "unknown-key" 0.5%float sample_time) = [].
Proof. split; reflexivity. Qed.

(** Uncertain then confirmed: one fetch, then a hot-cache hit. *)
Example uncertain_then_confirmed :
  snd (get preloaded_lookup "z" 0.5%float sample_time) = ["z"] /\
  get_begin (fst (fst (get preloaded_lookup "z" 0.5%float sample_time))) "z"
  = Returned (with_stats (fst (fst (get preloaded_lookup "z" 0.5%float sample_time)))
                         (mkStats 2 1 0 0 1 1 0))
             (mock_record "z" sample_time).
Proof. split; reflexivity. Qed.

(** False positive: one fetch that finds nothing, then a negative hit. *)
Example false_positive_then_negative_hit :
  get preloaded_lookup "z" 0.0625%float sample_time
  = (mkFastLookup (hotCache preloaded_lookup) (bloom preloaded_lookup) ∅ {["z"]} ∅
                  (mkStats 1 0 0 0 1 1 1),
     Resolved VNull, ["z"]) /\
  snd (get (fst (fst (get preloaded_lookup "z" 0.0625%float sample_time))) "z"
           0.5%float sample_time) = [].
Proof. split; vm_compute; reflexivity. Qed.

(** *** Further properties, on the samples *)

Lemma lru_get_protects_from_next_eviction_witness :
  2 <= maxSize full_cache /\
  LRU_has full_cache "a" = true /\
  LRU_has (LRU_set (fst (LRU_get full_cache "a")) "c" VNull) "a" = true /\
  LRU_has (LRU_set full_cache "c" VNull) "a" = false.
Proof.
  assert (Hcap : 2 <= maxSize full_cache) by discriminate.
  assert (Hhas : LRU_has full_cache "a" = true) by reflexivity.
  split; [exact Hcap|]. split; [exact Hhas|]. split; [|reflexivity].
  exact (lru_get_protects_from_next_eviction full_cache "a" "c" VNull Hcap Hhas).
Defined.

Lemma lru_set_without_eviction_witness :
  LRU_has full_cache "a" = true /\
  map_get "b" (cache (LRU_set full_cache "a" VNull)) = map_get "b" (cache full_cache) /\
  map_get "a" (cache (LRU_set full_cache "a" VNull)) = Some VNull.
Proof.
  assert (Hhas : LRU_has full_cache "a" = true) by reflexivity.
  split; [exact Hhas|].
  apply (lru_set_without_eviction full_cache "a" "b" VNull (or_introl Hhas)).
  discriminate.
Defined.

Lemma lru_set_evicts_only_the_oldest_witness :
  cache full_cache = [("a", sample_record); ("b", VNull)] /\
  map_get "b" (cache (LRU_set full_cache "c" sample_record))
  = map_get "b" (cache full_cache) /\
  map_get "a" (cache (LRU_set full_cache "c" sample_record)) = None.
Proof.
  assert (Hc : cache full_cache = [("a", sample_record); ("b", VNull)]) by reflexivity.
  split; [exact Hc|]. split; [|reflexivity].
  apply (lru_set_evicts_only_the_oldest full_cache "c" "b" "a" sample_record
           sample_record [("b", VNull)] Hc); discriminate.
Defined.

Lemma filter_answers_only_grow_witness :
  BloomFilter_mightContain (BloomFilter_add (BloomFilter_new 64 3) "k1") "zz" = true /\
  BloomFilter_mightContain
    (fold_left BloomFilter_add ["b"; "k1"] (BloomFilter_add (BloomFilter_new 64 3) "k1"))
    "zz" = true.
Proof.
  assert (Hb : BloomFilter_mightContain
                 (BloomFilter_add (BloomFilter_new 64 3) "k1") "zz" = true)
    by reflexivity.
  split; [exact Hb|].
  exact (filter_answers_only_grow _ "zz" ["b"; "k1"] Hb).
Defined.

Lemma first_get_on_new_lookup_misses_witness :
  fprHashes small_options <> Some 0%nat /\
  get small_lookup "z" 0.5%float sample_time
  = (mkFastLookup (hotCache small_lookup) (bloom small_lookup) ∅ {["z"]} ∅
                  (mkStats 1 0 0 0 0 0 1),
     Resolved VNull, []).
Proof.
  assert (Hh : fprHashes small_options <> Some 0%nat) by discriminate.
  split; [exact Hh|].
  exact (first_get_on_new_lookup_misses small_options "z" 0.5%float sample_time Hh).
Defined.

Lemma preloaded_key_goes_to_the_store_witness :
  wf_filter (bloom lookup_after_miss) /\
  In "y" (take 2 ["z"; "y"; "x"]) /\
  LRU_has (hotCache lookup_after_miss) "y" = false /\
  negative (preload lookup_after_miss ["z"; "y"; "x"] 1) = negative lookup_after_miss /\
  get_begin (preload lookup_after_miss ["z"; "y"; "x"] 1) "y"
  = Awaiting (with_stats (preload lookup_after_miss ["z"; "y"; "x"] 1)
                         (mkStats 2 0 0 0 1 1 1)) BloomFetch.
Proof.
  assert (Hwf : wf_filter (bloom lookup_after_miss)) by (split; reflexivity).
  assert (Hin : In "y" (take 2 ["z"; "y"; "x"])) by (simpl; tauto).
  assert (Hhot : LRU_has (hotCache lookup_after_miss) "y" = false) by reflexivity.
  assert (Hneg : "y" ∉ negative lookup_after_miss)
    by (apply (bool_decide_eq_false_1 _); vm_compute; reflexivity).
  assert (Hsieve : "y" ∉ sieve lookup_after_miss)
    by (apply (bool_decide_eq_false_1 _); vm_compute; reflexivity).
  split; [exact Hwf|]. split; [exact Hin|]. split; [exact Hhot|].
  destruct (preloaded_key_goes_to_the_store lookup_after_miss ["z"; "y"; "x"] 1 "y")
    as (_ & _ & Hn & _ & _ & Hget).
  split; [exact Hn|exact (Hget Hwf Hin Hhot Hneg Hsieve)].
Defined.

Lemma added_record_survives_clear_witness :
  wf_filter (bloom lookup_after_miss) /\
  snd (fst (get (clear (add lookup_after_miss "unknown-key" sample_record))
                "unknown-key" 0.0625%float sample_time)) = Resolved sample_record /\
  snd (get (clear (add lookup_after_miss "unknown-key" sample_record))
           "unknown-key" 0.0625%float sample_time) = ["unknown-key"].
Proof.
  assert (Hwf : wf_filter (bloom lookup_after_miss)) by (split; reflexivity).
  split; [exact Hwf|].
  exact (added_record_survives_clear lookup_after_miss "unknown-key" sample_record
           0.0625%float sample_time Hwf).
Defined.

Lemma hot_keys_are_confirmed_present_witness :
  LRU_has (hotCache (run_calls small_lookup
                       [CallGet "k1" 0.5%float sample_time; CallAdd "k1" sample_record]))
          "k1" = true /\
  ("k1" ∈ sieve (run_calls small_lookup
                   [CallGet "k1" 0.5%float sample_time; CallAdd "k1" sample_record])) /\
  ("k1" ∉ negative (run_calls small_lookup
                      [CallGet "k1" 0.5%float sample_time; CallAdd "k1" sample_record])).
Proof.
  assert (Hhas : LRU_has (hotCache (run_calls small_lookup
                   [CallGet "k1" 0.5%float sample_time; CallAdd "k1" sample_record]))
                   "k1" = true) by reflexivity.
  split; [exact Hhas|].
  exact (hot_keys_are_confirmed_present small_options
           [CallGet "k1" 0.5%float sample_time; CallAdd "k1" sample_record] "k1" Hhas).
Defined.

Lemma sieve_branch_caches_a_null_fetch_witness :
  LRU_has (hotCache lookup_after_eviction) "z" = false /\
  ("z" ∈ sieve lookup_after_eviction) /\
  index lookup_after_eviction !! "z" = None /\
  snd (fst (get lookup_after_eviction "z" 0.0625%float sample_time)) = Resolved VNull /\
  snd (get lookup_after_eviction "z" 0.0625%float sample_time) = ["z"] /\
  LRU_has (LRU_set (hotCache lookup_after_eviction) "z" VNull) "z" = true.
Proof.
  assert (Hhot : LRU_has (hotCache lookup_after_eviction) "z" = false) by reflexivity.
  assert (Hneg : "z" ∉ negative lookup_after_eviction)
    by (apply (bool_decide_eq_false_1 _); vm_compute; reflexivity).
  assert (Hsieve : "z" ∈ sieve lookup_after_eviction)
    by (apply (bool_decide_unpack _); vm_compute; exact I).
  assert (Hindex : index lookup_after_eviction !! "z" = None) by reflexivity.
  assert (Hdraw : PrimFloat.ltb 0.0625%float one_tenth = true) by reflexivity.
  split; [exact Hhot|]. split; [exact Hsieve|]. split; [exact Hindex|].
  destruct (sieve_branch_caches_a_null_fetch lookup_after_eviction "z" 0.0625%float
              sample_time Hhot Hneg Hsieve Hindex Hdraw) as (Hget & _ & Hhas).
  rewrite Hget. split; [reflexivity|]. split; [reflexivity|exact Hhas].
Defined.

Lemma overlapping_gets_each_fetch_witness :
  LRU_has (hotCache preloaded_lookup) "z" = false /\
  BloomFilter_mightContain (bloom preloaded_lookup) "z" = true /\
  suspended (run_events (mkLoop preloaded_lookup []) [Get "z"; Get "z"; Get "z"])
  = [("z", BloomFetch); ("z", BloomFetch); ("z", BloomFetch)] /\
  fetches (stats (registry (run_events (mkLoop preloaded_lookup [])
                              [Get "z"; Get "z"; Get "z"]))) = 3%nat.
Proof.
  assert (Hhot : LRU_has (hotCache preloaded_lookup) "z" = false) by reflexivity.
  assert (Hneg : "z" ∉ negative preloaded_lookup)
    by (apply (bool_decide_eq_false_1 _); vm_compute; reflexivity).
  assert (Hsieve : "z" ∉ sieve preloaded_lookup)
    by (apply (bool_decide_eq_false_1 _); vm_compute; reflexivity).
  assert (Hbloom : BloomFilter_mightContain (bloom preloaded_lookup) "z" = true)
    by reflexivity.
  split; [exact Hhot|]. split; [exact Hbloom|].
  exact (overlapping_gets_each_fetch 3 preloaded_lookup [] "z" Hhot Hneg Hsieve Hbloom).
Defined.

Lemma add_during_suspended_get_wins_witness :
  truthy sample_record = true /\
  ("z" ∈ sieve (registry (run_events (mkLoop preloaded_lookup [])
                  [Get "z"; Add "z" sample_record; Timer 0 0.0625%float sample_time]))) /\
  ("z" ∉ negative (registry (run_events (mkLoop preloaded_lookup [])
                  [Get "z"; Add "z" sample_record; Timer 0 0.0625%float sample_time]))).
Proof.
  assert (Hr : truthy sample_record = true) by reflexivity.
  split; [exact Hr|].
  destruct (add_during_suspended_get_wins preloaded_lookup "z" sample_record
              0.0625%float sample_time Hr) as (_ & Hs & Hn & _).
  split; assumption.
Defined.

Lemma negative_answer_is_sticky_witness :
  LRU_has (hotCache lookup_after_miss) "unknown-key" = false /\
  ("unknown-key" ∈ negative lookup_after_miss) /\
  snd (fst (get (run_calls lookup_after_miss
                   [CallPreload ["unknown-key"] 0; CallGet "z" 0.5%float sample_time])
                "unknown-key" 0.5%float sample_time)) = Resolved VNull /\
  snd (get (run_calls lookup_after_miss
              [CallPreload ["unknown-key"] 0; CallGet "z" 0.5%float sample_time])
           "unknown-key" 0.5%float sample_time) = [].
Proof.
  assert (Hhot : LRU_has (hotCache lookup_after_miss) "unknown-key" = false)
    by reflexivity.
  assert (Hneg : "unknown-key" ∈ negative lookup_after_miss)
    by (apply (bool_decide_unpack _); vm_compute; exact I).
  split; [exact Hhot|]. split; [exact Hneg|].
  exact (negative_answer_is_sticky
           [CallPreload ["unknown-key"] 0; CallGet "z" 0.5%float sample_time]
           lookup_after_miss "unknown-key" 0.5%float sample_time Hhot Hneg eq_refl).
Defined.
